(** * image_comp.py: in-place image recompression, verified model

    A shallow embedding of [ImageCompressor] (src/image_comp.py).

    Conventions of the embedding:
    - a Python [str] is a [list ascii]; [str.lower] is modelled on the ASCII
      letters (bytes outside A-Z are left alone);
    - a [pathlib.Path] is the string [str(path)] prints, already in pathlib's
      normal form, on a POSIX host (separator [/]);
    - Python's unbounded [int] is [Z];
    - the image library (PIL) is an external collaborator: its operations are
      the fields of a [codec] record and every statement quantifies over it;
    - the disk is a finite map from paths to entries, a regular file with its
      bytes or a directory; [os], [shutil] and [pathlib] act on it as on a
      POSIX host, [Path.suffix] as CPython up to 3.13 computes it;
    - a float that the source only renders ([:.2f], [:.1f]) is the exact
      rational it stands for, which it is for sizes below [2^53]: every
      statement about a rendered size carries that bound ([exact_float]);
    - the folder the user types goes through [Path(...)]: the run is on its
      normal form, and the scan names the entries below it as pathlib does;
    - what the program prints, and each call of [img.save], is recorded in a
      trace;
    - only exceptions deriving from [Exception] are modelled
      (no KeyboardInterrupt / SystemExit).

    The file has the definitions first (the program, then the vocabulary of
    the statements), then the facts, and ends with the statements evaluated
    on small sample disks. *)

From Stdlib Require Import ZArith QArith Qround Qabs Qfield Lqa Ascii String DecimalString Lia List.
From stdpp Require Import base option list strings gmap.

Local Open Scope Z_scope.

(** ** Python strings *)

Abbreviation str := (list ascii).

(** A string literal of the source. *)
Definition lit (x : string) : str := list_ascii_of_string x.

Module PyStr.

Definition len (x : str) : Z := Z.of_nat (length x).

(** [c.lower()] for one ASCII character. *)
Definition lower_char (c : ascii) : ascii :=
  let n := nat_of_ascii c in
  if ((65 <=? n)%nat && (n <=? 90)%nat)%bool then ascii_of_nat (n + 32) else c.

(** [x.lower()] *)
Definition lower (x : str) : str := map lower_char x.

(** [x[-k:]] for a positive literal [k]: the last [k] characters, the whole
    string when it is shorter. *)
Definition slice_last (k : nat) (x : str) : str := drop (length x - k) x.

(** [x[i:]] for [0 <= i]. *)
Definition slice_from (i : Z) (x : str) : str := drop (Z.to_nat i) x.

(** [x.endswith(suf)] for one suffix. *)
Definition endswith1 (x suf : str) : bool :=
  bool_decide (slice_last (length suf) x = suf).

(** [x.endswith((suf1, suf2, ...))] *)
Definition endswith (x : str) (sufs : list str) : bool :=
  existsb (endswith1 x) sufs.

(** [x.rfind(c)], counted from offset [i]: the highest index of [c], or -1. *)
Fixpoint rfind_from (c : ascii) (x : str) (i : Z) : Z :=
  match x with
  | [] => -1
  | a :: x' =>
      let r := rfind_from c x' (i + 1) in
      if 0 <=? r then r else if bool_decide (a = c) then i else -1
  end.

Definition rfind (c : ascii) (x : str) : Z := rfind_from c x 0.

(** [x.split(c)]: always at least one piece. *)
Fixpoint split (c : ascii) (x : str) : list str :=
  match x with
  | [] => [[]]
  | a :: x' =>
      if bool_decide (a = c) then [] :: split c x'
      else match split c x' with
           | [] => [[a]]
           | p :: ps => (a :: p) :: ps
           end
  end.

(** [sep.join(xs)] *)
Fixpoint join (sep : str) (xs : list str) : str :=
  match xs with
  | [] => []
  | [x] => x
  | x :: xs' => x ++ sep ++ join sep xs'
  end.

End PyStr.

(** ** pathlib (PurePosixPath) *)

Module PyPath.

(** The parts pathlib keeps of the relative portion of a path: the pieces
    between separators that are neither empty nor [.]. *)
Definition is_part (x : str) : Prop := x <> [] /\ x <> lit ".".

#[global] Instance is_part_dec x : Decision (is_part x).
Proof. unfold is_part. apply _. Defined.

Definition parts (p : str) : list str := filter is_part (PyStr.split "/" p).

(** The root pathlib reads off a POSIX path: [//] for exactly two leading
    slashes, [/] for one or for three and more, none for a relative path. *)
Definition root (p : str) : str :=
  if bool_decide (lit "//" `prefix_of` p /\ ~ lit "///" `prefix_of` p) then lit "//"
  else if bool_decide (lit "/" `prefix_of` p) then lit "/"
  else [].

(** [str(Path(p))]: the root, then the parts joined by the separator; [.]
    when nothing is left. *)
Definition normalize (p : str) : str :=
  let s := root p ++ PyStr.join (lit "/") (parts p) in
  if bool_decide (s = []) then lit "." else s.

(** [Path(p).name]: the final component, the empty string if there is none. *)
Definition name (p : str) : str := default [] (last (parts p)).

(** [Path(p).suffix]:
    [i = name.rfind('.'); name[i:] if 0 < i < len(name) - 1 else ''] *)
Definition suffix (p : str) : str :=
  let nm := name p in
  let i := PyStr.rfind "." nm in
  if ((0 <? i) && (i <? PyStr.len nm - 1))%bool then PyStr.slice_from i nm else [].

End PyPath.

(** ** ImageCompressor: classification of file names *)

(** [self.supported_formats] *)
Definition supported_formats : list str :=
  [lit ".jpg"; lit ".jpeg"; lit ".png"; lit ".webp"; lit ".avif"].

(** [self.quality_mapping] *)
Definition quality_mapping : list (str * Z) :=
  [(lit ".jpg", 85); (lit ".jpeg", 85); (lit ".png", 95); (lit ".webp", 85); (lit ".avif", 80)].

(** [self.quality_mapping.get(ext, default)] *)
Definition quality_mapping_get (ext : str) (default : Z) : Z :=
  match list_find (fun kv => kv.1 = ext) quality_mapping with
  | Some (_, kv) => kv.2
  | None => default
  end.

(** [get_extension(self, filename)] *)
Definition get_extension (filename : str) : str :=
  let name := PyStr.lower filename in
  if PyStr.endswith name [lit ".jpg.avif"; lit ".jpg.webp"] then PyStr.slice_last 9 name
  else if PyStr.endswith name [lit ".png.webp"; lit ".png.avif"] then PyStr.slice_last 8 name
  else PyPath.suffix name.

(** [is_image(self, filename)] *)
Definition is_image (filename : str) : bool :=
  let ext := get_extension filename in
  bool_decide (ext ∈ supported_formats).

(** ** Exceptions, results and the state-and-exception monad *)

(** The exceptions the modelled code can meet. *)
Inductive exn :=
  | FileNotFoundError (path : str)      (* os.path.getsize, os.remove, open *)
  | IsADirectoryError (path : str)      (* open / unlink of a directory *)
  | ShutilError (path : str)            (* shutil.move: destination exists *)
  | ZeroDivisionError
  | ImageError (msg : str).             (* whatever the image library raises *)

Inductive result (A : Type) :=
  | Return (a : A)
  | Raise (e : exn).
Arguments Return {A} a.
Arguments Raise {A} e.

(** A computation over a state [St]: side effects made before an exception
    is raised stay in the state, as in Python. *)
Definition M (St A : Type) : Type := St -> result A * St.

Definition ret {St A} (a : A) : M St A := fun σ => (Return a, σ).
Definition raise {St A} (e : exn) : M St A := fun σ => (Raise e, σ).
Definition bind {St A B} (m : M St A) (k : A -> M St B) : M St B :=
  fun σ => match m σ with
           | (Return a, σ') => k a σ'
           | (Raise e, σ') => (Raise e, σ')
           end.
Definition get {St} : M St St := fun σ => (Return σ, σ).
Definition modify {St} (f : St -> St) : M St unit := fun σ => (Return tt, f σ).

Declare Scope py_scope.
Delimit Scope py_scope with py.
Notation "x <- m ;; k" := (bind m (fun x => k))
  (at level 100, m at next level, right associativity) : py_scope.
Notation "m ;; k" := (bind m (fun _ => k))
  (at level 100, right associativity) : py_scope.

(** [for x in xs: body(x)] *)
Fixpoint for_each {St A} (xs : list A) (body : A -> M St unit) : M St unit :=
  match xs with
  | [] => ret tt
  | x :: xs' => bind (body x) (fun _ => for_each xs' body)
  end.

(** [enumerate(xs, start)] *)
Fixpoint enumerate {A} (xs : list A) (start : Z) : list (Z * A) :=
  match xs with
  | [] => []
  | x :: xs' => (start, x) :: enumerate xs' (start + 1)
  end.

(** ** The world: statistics, file system, observable trace *)

Definition bytes := list Byte.byte.

(** [self.stats] *)
Record Stats := MkStats {
  total_files : Z;
  compressed : Z;
  failed : Z;
  original_size : Z;
  compressed_size : Z
}.

(** The dictionary [__init__] creates. *)
Definition stats_init : Stats := MkStats 0 0 0 0 0.

(** What a path names on disk. A directory has a size of its own, which
    [os.path.getsize] reports. *)
Inductive entry :=
  | File (data : bytes)
  | Dir (st_size : N).

(** The encoder calls of [compress_image], with their keyword arguments. *)
Inductive encoder :=
  | JPEG (quality : Z) (optimize : bool)
  | PNG (optimize : bool)
  | WEBP (quality : Z) (method : Z)
  | AVIF (quality : Z).

(** The lines the program prints. Numbers that the source renders through a
    float format ([:.1f]) are carried as exact rationals. *)
Inductive line :=
  | MsgError (image_path : str) (e : exn)     (* "❌ Erreur avec {image_path}: {str(e)}" *)
  | MsgNoFolder (folder_path : str)           (* "❌ Le dossier {folder_path} n'existe pas!" *)
  | MsgNoImage                                (* "⚠️  Aucune image trouvée dans le dossier!" *)
  | MsgProcessing (total : Z)                 (* "🖼️  Traitement de {total} image(s)..." *)
  | MsgProgress (i total : Z) (name : str)    (* "[{i}/{total}] {name}..." *)
  | MsgReduced (reduction : Q)                (* "✓ Réduit de {reduction:.1f}%" *)
  | MsgCross                                  (* "✗" *)
  | MsgEndTime                                (* "🕐 Fin du traitement: ..." *)
  | MsgRule                                   (* "=" * 50 *)
  | MsgTitle                                  (* "📊 RÉSUMÉ DE COMPRESSION" *)
  | MsgTotal (n : Z)                          (* "Total d'images: {n}" *)
  | MsgCompressed (n : Z)                     (* "Compressées avec succès: {n}" *)
  | MsgErrors (n : Z)                         (* "Erreurs: {n}" *)
  | MsgOriginalSize (size : str)              (* "Taille originale: {size}" *)
  | MsgCompressedSize (size : str)            (* "Taille compressée: {size}" *)
  | MsgSaved (saved : str) (total_reduction : Q) (* "Espace économisé: {saved} ({total_reduction:.1f}%)" *)
  | MsgDone                                   (* "✅ Compression terminée!" *)
  | MsgNotDone.                               (* "❌ La compression n'a pas pu être complétée." *)

(** Observable events: printed lines, and the calls of [img.save]. *)
Inductive event :=
  | EvPrint (l : line)
  | EvSave (temp_path : str) (enc : encoder).

Record state := MkState {
  stats : Stats;
  fs : gmap str entry;
  trace : list event
}.

Definition set_stats (f : Stats -> Stats) (σ : state) : state :=
  MkState (f (stats σ)) (fs σ) (trace σ).
Definition set_fs (f : gmap str entry -> gmap str entry) (σ : state) : state :=
  MkState (stats σ) (f (fs σ)) (trace σ).
Definition emit (ev : event) (σ : state) : state :=
  MkState (stats σ) (fs σ) (trace σ ++ [ev]).

(** [print(...)] *)
Definition print (l : line) : M state unit := modify (emit (EvPrint l)).

(** ** os, os.path, shutil, pathlib on the modelled file system *)

Module Os.

(** [os.path.getsize(p)] *)
Definition getsize (p : str) : M state Z := fun σ =>
  match fs σ !! p with
  | Some (File data) => (Return (Z.of_nat (length data)), σ)
  | Some (Dir n) => (Return (Z.of_N n), σ)
  | None => (Raise (FileNotFoundError p), σ)
  end.

(** [os.path.exists(p)], [Path.exists()] *)
Definition exists_ (p : str) : M state bool := fun σ =>
  (Return (bool_decide (is_Some (fs σ !! p))), σ).

(** [Path.is_file()] *)
Definition is_file (σ : state) (p : str) : bool :=
  match fs σ !! p with Some (File _) => true | _ => false end.

(** [os.remove(p)] *)
Definition remove (p : str) : M state unit := fun σ =>
  match fs σ !! p with
  | Some (File _) => (Return tt, set_fs (delete p) σ)
  | Some (Dir _) => (Raise (IsADirectoryError p), σ)
  | None => (Raise (FileNotFoundError p), σ)
  end.

(** [shutil.move(src, dst)] for a regular file [src]: a rename over [dst],
    or into [dst] when that is a directory. *)
Definition move (src dst : str) : M state unit := fun σ =>
  match fs σ !! src with
  | Some (File data) =>
      match fs σ !! dst with
      | Some (Dir _) =>
          let real_dst := dst ++ lit "/" ++ PyPath.name src in
          if bool_decide (is_Some (fs σ !! real_dst))
          then (Raise (ShutilError real_dst), σ)
          else (Return tt, set_fs (fun m => <[real_dst := File data]> (delete src m)) σ)
      | _ => (Return tt, set_fs (fun m => <[dst := File data]> (delete src m)) σ)
      end
  | Some (Dir n) => (Raise (IsADirectoryError src), σ)
  | None => (Raise (FileNotFoundError src), σ)
  end.

(** A name a directory entry can have. *)
Definition is_entry_name (x : str) : bool :=
  bool_decide (x <> [] /\ x <> lit "." /\ x <> lit "..").

(** What pathlib writes before the names of the entries below [root]: nothing
    for the current directory [.], the root itself for [/] and [//], and
    [root/] otherwise. *)
Definition child_prefix (root : str) : str :=
  if bool_decide (root = lit ".") then []
  else if bool_decide (root = lit "/" \/ root = lit "//") then root
  else root ++ lit "/".

(** [p] is the string of a path below [root], as [rglob] names it: the prefix
    of [root], then one or more entry names joined by the separator. *)
Definition below (root p : str) : bool :=
  bool_decide (child_prefix root `prefix_of` p) &&
  forallb is_entry_name (PyStr.split "/" (drop (length (child_prefix root)) p)).

(** [root.rglob('*')]: every entry below the directory [root]. *)
Definition rglob (σ : state) (root : str) : list str :=
  match fs σ !! root with
  | Some (Dir _) => filter (fun p => below root p = true) (elements (dom (fs σ)))
  | _ => []
  end.

End Os.

(** ** The image library *)

(** What [img.save(path, ...)] did: it wrote the whole file, or it raised,
    possibly leaving a partial file behind. *)
Inductive save_result :=
  | Saved (data : bytes)
  | SaveFailed (e : exn) (partial : option bytes).

Record codec := MkCodec {
  Img : Type;
  (** [Image.open(path)], from the content of the file *)
  img_open : bytes -> result Img;
  (** [img.mode] *)
  img_mode : Img -> str;
  (** [Image.new('RGB', img.size, (255, 255, 255))] followed by
      [paste(img, mask=...)]; the flag says whether the mask is the alpha band
      [img.split()[-1]] or [None] *)
  img_flatten : Img -> bool -> result Img;
  (** the encoding [img.save] writes *)
  img_save : Img -> encoder -> save_result
}.

(** ** Numbers and their rendering *)

(** [a / b] on two [int]s: true division. *)
Definition true_div {St} (a b : Z) : M St Q :=
  if b =? 0 then raise ZeroDivisionError else ret (inject_Z a / inject_Z b)%Q.

(** [x < y] on rationals. *)
Definition Qltb (x y : Q) : bool := negb (Qle_bool y x).

(** [str(n)] for [0 <= n]. *)
Definition str_of_nonneg (n : Z) : str :=
  list_ascii_of_string (DecimalString.NilZero.string_of_uint (N.to_uint (Z.to_N n))).

(** The integer nearest to [x], ties to the even one. *)
Definition round_half_even (x : Q) : Z :=
  let f := Qfloor x in
  let r := (x - inject_Z f)%Q in
  if Qltb r (1 # 2) then f
  else if Qltb (1 # 2) r then f + 1
  else if Z.even f then f else f + 1.

(** The integers a float holds exactly, with each of their quotients by a
    power of 1024. On them the rational arithmetic below is the float
    arithmetic of the code. Beyond them the code rounds, and for integers
    outside the range of a float it raises [OverflowError]: nothing is stated
    about the rendering there, and every statement about it carries this
    bound. *)
Definition exact_float (n : Z) : Prop := - 2 ^ 53 < n < 2 ^ 53.

(** [f"{x:.2f}"]: a float is rendered from its exact value, correctly rounded
    to two decimals. The rational [x] stands for the float, which it is for
    an [exact_float] size divided by a power of 1024. *)
Definition format_2f (x : Q) : str :=
  let neg := Qltb x 0 in
  let h := round_half_even (Qabs x * 100)%Q in
  let frac := h mod 100 in
  (if neg then lit "-" else []) ++
  str_of_nonneg (h / 100) ++ lit "." ++
  (if frac <? 10 then lit "0" else []) ++ str_of_nonneg frac.

(** The loop of [format_size]: [units] are the units still to try. The
    division is that of the rationals, which is the code's on the quotients of
    an [exact_float] size. *)
Fixpoint format_size_loop (units : list str) (size_bytes : Q) : str :=
  match units with
  | [] => format_2f size_bytes ++ lit " TB"
  | unit :: units' =>
      if Qltb size_bytes 1024 then format_2f size_bytes ++ lit " " ++ unit
      else format_size_loop units' (size_bytes / 1024)%Q
  end.

(** [format_size(size_bytes)], for an [exact_float] size. *)
Definition format_size (size_bytes : Z) : str :=
  format_size_loop [lit "B"; lit "KB"; lit "MB"; lit "GB"] (inject_Z size_bytes).

(** The value [format_size] holds after [k] divisions by 1024. *)
Fixpoint scaled (n : Z) (k : nat) : Q :=
  match k with
  | O => inject_Z n
  | S k' => (scaled n k' / 1024)%Q
  end.

(** ** ImageCompressor.compress_image *)

(** The [if]/[elif] chain that picks the encoder; [None] is the final [else]. *)
Definition encoder_for (ext : str) (quality : Z) : option encoder :=
  if bool_decide (ext ∈ [lit ".jpg"; lit ".jpeg"]) then Some (JPEG quality true)
  else if bool_decide (ext = lit ".png") then Some (PNG true)
  else if bool_decide (ext = lit ".webp") then Some (WEBP quality 6)
  else if bool_decide (ext ∈ [lit ".jpg.avif"; lit ".png.avif"]) then Some (AVIF quality)
  else None.

(** The activation of [compress_image]: the world and the local [temp_path],
    which the [except] clause reads. *)
Definition frame : Type := state * option str.

Definition lift {A} (m : M state A) : M frame A := fun fr =>
  match m fr.1 with (r, σ') => (r, (σ', fr.2)) end.

(** [temp_path = ...] *)
Definition assign_temp_path (v : option str) : M frame unit :=
  modify (fun fr => (fr.1, v)).

(** [self.stats['compressed_size'] += n] and its siblings *)
Definition add_compressed_size (n : Z) : M state unit :=
  modify (set_stats (fun st => MkStats (total_files st) (compressed st) (failed st)
                                       (original_size st) (compressed_size st + n))).
Definition add_original_size (n : Z) : M state unit :=
  modify (set_stats (fun st => MkStats (total_files st) (compressed st) (failed st)
                                       (original_size st + n) (compressed_size st))).
Definition incr_compressed : M state unit :=
  modify (set_stats (fun st => MkStats (total_files st) (compressed st + 1) (failed st)
                                       (original_size st) (compressed_size st))).
Definition incr_failed : M state unit :=
  modify (set_stats (fun st => MkStats (total_files st) (compressed st) (failed st + 1)
                                       (original_size st) (compressed_size st))).
Definition set_total_files (n : Z) : M state unit :=
  modify (set_stats (fun st => MkStats n (compressed st) (failed st)
                                       (original_size st) (compressed_size st))).

Section Compressor.

Context (C : codec).

Local Open Scope py_scope.

(** [Image.open(image_path)] *)
Definition open_image (p : str) : M state (Img C) := fun σ =>
  match fs σ !! p with
  | Some (File data) => (img_open C data, σ)
  | Some (Dir _) => (Raise (IsADirectoryError p), σ)
  | None => (Raise (FileNotFoundError p), σ)
  end.

(** The flattening onto white of lines 53-56. *)
Definition flatten (img : Img C) : M state (Img C) := fun σ =>
  (img_flatten C img (bool_decide (img_mode C img = lit "RGBA")), σ).

(** [img.save(temp_path, FORMAT, ...)] *)
Definition save (img : Img C) (temp_path : str) (enc : encoder) : M state unit := fun σ =>
  let σ1 := emit (EvSave temp_path enc) σ in
  match fs σ !! temp_path with
  | Some (Dir _) => (Raise (IsADirectoryError temp_path), σ1)
  | _ =>
      match img_save C img enc with
      | Saved data => (Return tt, set_fs (insert temp_path (File data)) σ1)
      | SaveFailed e (Some part) => (Raise e, set_fs (insert temp_path (File part)) σ1)
      | SaveFailed e None => (Raise e, σ1)
      end
  end.

(** The body of the [try] of [compress_image]. *)
Definition compress_try (image_path : str) : M frame bool :=
  original_size <- lift (Os.getsize image_path);;
  img <- lift (open_image image_path);;
  img <- (if bool_decide (img_mode C img ∈ [lit "RGBA"; lit "LA"; lit "P"])
          then lift (flatten img) else ret img);;
  let ext := get_extension image_path in
  let quality := quality_mapping_get ext 85 in
  let temp_path := image_path ++ lit ".tmp" in
  assign_temp_path (Some temp_path);;
  match encoder_for ext quality with
  | None => ret false
  | Some enc =>
      lift (save img temp_path enc);;
      compressed_size <- lift (Os.getsize temp_path);;
      if compressed_size <? original_size then
        lift (Os.move temp_path image_path);;
        lift (add_compressed_size compressed_size);;
        ret true
      else
        lift (Os.remove temp_path);;
        lift (add_compressed_size original_size);;
        ret true
  end.

(** The [except Exception as e] clause. *)
Definition compress_except (image_path : str) (e : exn) (temp_path : option str)
  : M state bool :=
  print (MsgError image_path e);;
  (match temp_path with
   | Some t => ex <- Os.exists_ t;; if ex then Os.remove t else ret tt
   | None => ret tt
   end);;
  ret false.

(** [compress_image(self, image_path)] *)
Definition compress_image (image_path : str) : M state bool := fun σ =>
  match compress_try image_path (σ, None) with
  | (Return b, fr) => (Return b, fr.1)
  | (Raise e, fr) => compress_except image_path e fr.2 fr.1
  end.

(** ** ImageCompressor.process_folder *)

(** The list comprehension of lines 99-100. *)
Definition image_files_of (σ : state) (folder_path : str) : list str :=
  filter (fun f => Os.is_file σ f && is_image (PyPath.name f)) (Os.rglob σ folder_path).

(** The body of the [for] loop. *)
Definition process_one (item : Z * str) : M state unit :=
  let '(i, image_path) := item in
  original_size <- Os.getsize image_path;;
  add_original_size original_size;;
  σ <- get;;
  print (MsgProgress i (total_files (stats σ)) (PyPath.name image_path));;
  ok <- compress_image image_path;;
  if ok then
    new_size <- Os.getsize image_path;;
    ratio <- true_div new_size original_size;;
    print (MsgReduced ((1 - ratio) * 100)%Q);;
    incr_compressed
  else
    print MsgCross;;
    incr_failed.

Definition process_folder (folder_path : str) : M state bool :=
  ex <- Os.exists_ folder_path;;
  if negb ex then
    print (MsgNoFolder folder_path);;
    ret false
  else
    σ <- get;;
    let image_files := image_files_of σ folder_path in
    if bool_decide (image_files = []) then
      print MsgNoImage;;
      ret false
    else
      set_total_files (Z.of_nat (length image_files));;
      print (MsgProcessing (Z.of_nat (length image_files)));;
      for_each (enumerate image_files 1) process_one;;
      ret true.

(** ** print_summary and the script *)

(** The sizes are rendered as [format_size] renders them, which is the code's
    rendering while the totals are [exact_float]. *)

Definition print_summary : M state unit :=
  print MsgEndTime;;
  print MsgRule;; print MsgTitle;; print MsgRule;;
  σ <- get;;
  let st := stats σ in
  print (MsgTotal (total_files st));;
  print (MsgCompressed (compressed st));;
  print (MsgErrors (failed st));;
  print (MsgOriginalSize (format_size (original_size st)));;
  print (MsgCompressedSize (format_size (compressed_size st)));;
  (if 0 <? original_size st then
     ratio <- true_div (compressed_size st) (original_size st);;
     print (MsgSaved (format_size (original_size st - compressed_size st))
                     ((1 - ratio) * 100)%Q)
   else ret tt);;
  print MsgRule.

(** The [__main__] block, from the folder the user typed (already stripped)
    and the file system: the exit status of the interpreter and the final
    state. [ImageCompressor(folder_path)] keeps [Path(folder_path)], so the
    run is on the normal form of what was typed. An exception that nothing
    catches ends the process with status 1. *)
Definition main (folder_path : str) (disk : gmap str entry) : Z * state :=
  let σ0 := MkState stats_init disk [] in
  match (ok <- process_folder (PyPath.normalize folder_path);;
         if ok then print_summary;; print MsgDone else print MsgNotDone) σ0 with
  | (Return _, σ) => (0, σ)
  | (Raise _, σ) => (1, σ)
  end.

End Compressor.

(** ** The outcomes of compress_image, case by case *)

Section Outcomes.

Context (C : codec).

(** Lines 47-56: the original bytes and the decoded, flattened image, or the
    exception one of these steps raises. *)
Definition preamble (σ : state) (p : str) : result (bytes * Img C) :=
  match fs σ !! p with
  | None => Raise (FileNotFoundError p)
  | Some (Dir _) => Raise (IsADirectoryError p)
  | Some (File orig) =>
      match img_open C orig with
      | Raise e => Raise e
      | Return img0 =>
          if bool_decide (img_mode C img0 ∈ [lit "RGBA"; lit "LA"; lit "P"]) then
            match img_flatten C img0 (bool_decide (img_mode C img0 = lit "RGBA")) with
            | Raise e => Raise e
            | Return img => Return (orig, img)
            end
          else Return (orig, img0)
      end
  end.

(** The encoder lines 59-73 pick for a path. *)
Definition chosen_encoder (p : str) : option encoder :=
  encoder_for (get_extension p) (quality_mapping_get (get_extension p) 85).

Definition with_compressed_size (n : Z) (st : Stats) : Stats :=
  MkStats (total_files st) (compressed st) (failed st) (original_size st) (compressed_size st + n).

(** Every way a call [compress_image(p)] can end: what the [try] body gave
    (a value, or the exception the [except] clause then handles), what the call
    gives, and the state it leaves. *)
Inductive compress_outcome (p : str) (σ : state) : result bool -> result bool -> state -> Prop :=
  | CoPrepareFails e :
      preamble σ p = Raise e ->
      compress_outcome p σ (Raise e) (Return false)
        (MkState (stats σ) (fs σ) (trace σ ++ [EvPrint (MsgError p e)]))
  | CoNoEncoder orig img :
      preamble σ p = Return (orig, img) ->
      chosen_encoder p = None ->
      compress_outcome p σ (Return false) (Return false) σ
  | CoTempIsDir orig img enc n :
      preamble σ p = Return (orig, img) ->
      chosen_encoder p = Some enc ->
      fs σ !! (p ++ lit ".tmp") = Some (Dir n) ->
      compress_outcome p σ (Raise (IsADirectoryError (p ++ lit ".tmp")))
        (Raise (IsADirectoryError (p ++ lit ".tmp")))
        (MkState (stats σ) (fs σ)
           (trace σ ++ [EvSave (p ++ lit ".tmp") enc;
                        EvPrint (MsgError p (IsADirectoryError (p ++ lit ".tmp")))]))
  | CoSaveFails orig img enc e part :
      preamble σ p = Return (orig, img) ->
      chosen_encoder p = Some enc ->
      (forall n, fs σ !! (p ++ lit ".tmp") <> Some (Dir n)) ->
      img_save C img enc = SaveFailed e part ->
      compress_outcome p σ (Raise e) (Return false)
        (MkState (stats σ) (delete (p ++ lit ".tmp") (fs σ))
           (trace σ ++ [EvSave (p ++ lit ".tmp") enc; EvPrint (MsgError p e)]))
  | CoReplaced orig img enc new :
      preamble σ p = Return (orig, img) ->
      chosen_encoder p = Some enc ->
      (forall n, fs σ !! (p ++ lit ".tmp") <> Some (Dir n)) ->
      img_save C img enc = Saved new ->
      (length new < length orig)%nat ->
      compress_outcome p σ (Return true) (Return true)
        (MkState (with_compressed_size (Z.of_nat (length new)) (stats σ))
           (<[p := File new]> (delete (p ++ lit ".tmp") (fs σ)))
           (trace σ ++ [EvSave (p ++ lit ".tmp") enc]))
  | CoKept orig img enc new :
      preamble σ p = Return (orig, img) ->
      chosen_encoder p = Some enc ->
      (forall n, fs σ !! (p ++ lit ".tmp") <> Some (Dir n)) ->
      img_save C img enc = Saved new ->
      (length orig <= length new)%nat ->
      compress_outcome p σ (Return true) (Return true)
        (MkState (with_compressed_size (Z.of_nat (length orig)) (stats σ))
           (delete (p ++ lit ".tmp") (fs σ))
           (trace σ ++ [EvSave (p ++ lit ".tmp") enc])).

End Outcomes.

(** The state in which the loop body calls [compress_image]: the original
    size [n] is counted and the progress line is out. *)
Definition announced (i : Z) (p : str) (n : Z) (σ : state) : state :=
  MkState (MkStats (total_files (stats σ)) (compressed (stats σ)) (failed (stats σ))
                   (original_size (stats σ) + n) (compressed_size (stats σ)))
          (fs σ)
          (trace σ ++ [EvPrint (MsgProgress i (total_files (stats σ)) (PyPath.name p))]).

(** The statistics after the loop body counted a file. *)
Definition counted_compressed (st : Stats) : Stats :=
  MkStats (total_files st) (compressed st + 1) (failed st) (original_size st) (compressed_size st).
Definition counted_failed (st : Stats) : Stats :=
  MkStats (total_files st) (compressed st) (failed st + 1) (original_size st) (compressed_size st).

(** The state in which the loop starts: the total is recorded and announced. *)
Definition started (n : Z) (σ : state) : state :=
  MkState (MkStats n (compressed (stats σ)) (failed (stats σ))
                   (original_size (stats σ)) (compressed_size (stats σ)))
          (fs σ)
          (trace σ ++ [EvPrint (MsgProcessing n)]).

(** "The compressed total grew by no more than the original total." *)
Definition sizes_grow_within (σ σ' : state) : Prop :=
  compressed_size (stats σ') - compressed_size (stats σ)
    <= original_size (stats σ') - original_size (stats σ).


(** The size [os.path.getsize] reports for an entry. *)
Definition entry_size (e : entry) : Z :=
  match e with
  | File data => Z.of_nat (length data)
  | Dir n => Z.of_N n
  end.

(** ** The classification as the specification words it *)

(** "the last [k] characters of the name" *)
Definition last_chars (k : nat) (x : str) : str := reverse (take k (reverse x)).

(** The logical extension of section 4.1: the compound forms are tested on the
    lowercased name, the fall-back is the file-system suffix, lowercased. *)
Definition logical_extension (filename : str) : str :=
  let name := PyStr.lower filename in
  if decide (lit ".jpg.avif" `suffix_of` name \/ lit ".jpg.webp" `suffix_of` name)
  then last_chars 9 name
  else if decide (lit ".png.webp" `suffix_of` name \/ lit ".png.avif" `suffix_of` name)
  then last_chars 8 name
  else PyStr.lower (PyPath.suffix filename).

(** The compound suffixes the scanner recognises. *)
Definition compound_suffixes : list str :=
  [lit ".jpg.avif"; lit ".jpg.webp"; lit ".png.webp"; lit ".png.avif"].

(** A file whose name is [stem.avif] (any letter case), with a stem, and that
    ends in none of the compound suffixes. *)
Definition plain_avif_name (p : str) : Prop :=
  (exists stem, stem <> [] /\ PyStr.lower (PyPath.name p) = stem ++ lit ".avif") /\
  (forall suf, suf ∈ compound_suffixes -> ~ suf `suffix_of` PyStr.lower (PyPath.name p)).

(** ** The vocabulary of the statements about a whole run *)

(** The events a call adds, and the events a list of paths may add. *)
Definition saves_for (xs : list str) (new : list event) : Prop :=
  forall t enc, EvSave t enc ∈ new ->
    enc ∈ [JPEG 85 true; PNG true; WEBP 85 6] /\
    exists p, p ∈ xs /\ t = p ++ lit ".tmp".

(** "The trace grew, and only by such events." *)
Definition trace_grows_by_saves_for (xs : list str) (σ σ' : state) : Prop :=
  exists new, trace σ' = trace σ ++ new /\ saves_for xs new.





(** The lines [print_summary] prints for given statistics. *)
Definition summary_lines (st : Stats) : list line :=
  [MsgEndTime; MsgRule; MsgTitle; MsgRule;
   MsgTotal (total_files st); MsgCompressed (compressed st); MsgErrors (failed st);
   MsgOriginalSize (format_size (original_size st));
   MsgCompressedSize (format_size (compressed_size st))] ++
  (if 0 <? original_size st
   then [MsgSaved (format_size (original_size st - compressed_size st))
           ((1 - inject_Z (compressed_size st) / inject_Z (original_size st)) * 100)%Q]
   else []) ++
  [MsgRule].



(** A decimal digit. *)
Definition is_digit (c : ascii) : bool := bool_decide (c ∈ lit "0123456789").

(** The two decimals of [format_2f], from the hundredths [frac]. *)
Definition two_decimals_ok (frac : Z) : bool :=
  match (if frac <? 10 then lit "0" else []) ++ str_of_nonneg frac with
  | [d1; d2] => is_digit d1 && is_digit d2
  | _ => false
  end.


(** ** Sample codecs and disks, for evaluating the model *)

(** A codec whose images are their own bytes: [accept_empty] says whether an
    empty file opens, [enc] is the encoding every format writes. *)
Definition sample_codec (accept_empty : bool) (enc : bytes -> bytes) : codec :=
  {| Img := bytes;
     img_open d := match d with
                   | [] => if accept_empty then Return d
                           else Raise (ImageError (lit "cannot identify image file"))
                   | _ => Return d
                   end;
     img_mode _ := lit "RGB";
     img_flatten i _ := Return i;
     img_save i _ := Saved (enc i) |}.

Definition three_bytes : bytes := [Byte.x01; Byte.x02; Byte.x03].

(** A folder with a jpeg, a plain avif, a compound name, and an empty png in a
    sub-folder. *)
Definition sample_disk : gmap str entry :=
  list_to_map [(lit "d", Dir 4096);
               (lit "d/a.jpg", File three_bytes);
               (lit "d/b.avif", File [Byte.x01]);
               (lit "d/c.png.avif", File [Byte.x01]);
               (lit "d/sub", Dir 4096);
               (lit "d/sub/e.PNG", File [])].

(** A folder where a directory sits at the temporary path of the only image. *)
Definition blocked_disk : gmap str entry :=
  list_to_map [(lit "d", Dir 4096);
               (lit "d/a.jpg", File three_bytes);
               (lit "d/a.jpg.tmp", Dir 4096)].

(** A folder without any image. *)
Definition imageless_disk : gmap str entry :=
  list_to_map [(lit "d", Dir 4096); (lit "d/notes.txt", File three_bytes)].


(** A disk named from the current directory, with a file outside it. *)
Definition cwd_disk : gmap str entry :=
  list_to_map [(lit ".", Dir 4096);
               (lit "a.jpg", File three_bytes);
               (lit "sub", Dir 4096);
               (lit "sub/b.png", File three_bytes);
               (lit "../c.jpg", File three_bytes);
               (lit "/", Dir 4096);
               (lit "/e.jpg", File three_bytes)].

Definition fresh (disk : gmap str entry) : state := MkState stats_init disk [].

(** The codecs of the examples: one that shrinks every image by a byte and
    refuses empty files, one that writes the bytes back, and one that also
    opens empty files. *)
Definition shrinking_codec : codec := sample_codec false (drop 1).
Definition faithful_codec : codec := sample_codec false (fun d => d).
Definition lenient_codec : codec := sample_codec true (fun d => d).

(** ** Proof automation *)

(** Runs the monadic steps of a call whose inputs are known. *)
Ltac run_steps :=
  repeat progress
    (unfold compress_except, bind, lift, print, modify, ret,
       Os.getsize, Os.exists_, Os.remove, Os.move, add_compressed_size,
       emit, set_fs, set_stats;
     cbn [fst snd fs stats trace]).

(** * Facts about the string and path primitives *)

Lemma lower_char_slash c : PyStr.lower_char c = "/"%char <-> c = "/"%char.
Proof.
  destruct c as [[] [] [] [] [] [] [] []]; vm_compute; split; intros H;
    first [ reflexivity | discriminate H ].
Qed.

Lemma lower_char_dot c : PyStr.lower_char c = "."%char <-> c = "."%char.
Proof.
  destruct c as [[] [] [] [] [] [] [] []]; vm_compute; split; intros H;
    first [ reflexivity | discriminate H ].
Qed.

Lemma lower_char_idem c : PyStr.lower_char (PyStr.lower_char c) = PyStr.lower_char c.
Proof. destruct c as [[] [] [] [] [] [] [] []]; vm_compute; reflexivity. Qed.

Lemma lower_app x y : PyStr.lower (x ++ y) = PyStr.lower x ++ PyStr.lower y.
Proof. unfold PyStr.lower. apply map_app. Qed.

Lemma lower_length x : length (PyStr.lower x) = length x.
Proof. unfold PyStr.lower. apply length_map. Qed.

Lemma lower_nil_iff x : PyStr.lower x = [] <-> x = [].
Proof. unfold PyStr.lower. destruct x; simpl; split; intros H; first [reflexivity | discriminate H]. Qed.

Lemma lower_dot_iff x : PyStr.lower x = lit "." <-> x = lit ".".
Proof.
  change (lit ".") with ["."%char]. unfold PyStr.lower.
  destruct x as [|a [|b x]]; simpl; split; intros H; try discriminate H.
  - injection H as Ha. apply (proj1 (lower_char_dot a)) in Ha. now subst.
  - injection H as ->. reflexivity.
Qed.

Lemma split_not_nil c x : PyStr.split c x <> [].
Proof.
  destruct x as [|a x]; simpl; [discriminate|].
  case_bool_decide; [discriminate|]. destruct (PyStr.split c x); discriminate.
Qed.

Lemma split_lower x :
  PyStr.split "/" (PyStr.lower x) = map PyStr.lower (PyStr.split "/" x).
Proof.
  induction x as [|a x IH]; simpl; [reflexivity|].
  rewrite IH.
  destruct (decide (a = "/"%char)) as [->|Hne].
  - rewrite !bool_decide_eq_true_2 by reflexivity. reflexivity.
  - rewrite !bool_decide_eq_false_2; [|assumption|rewrite lower_char_slash; assumption].
    destruct (PyStr.split "/" x); reflexivity.
Qed.

Lemma is_part_lower y : PyPath.is_part (PyStr.lower y) <-> PyPath.is_part y.
Proof. unfold PyPath.is_part. rewrite lower_nil_iff, lower_dot_iff. reflexivity. Qed.

Lemma filter_is_part_lower ys :
  filter PyPath.is_part (map PyStr.lower ys) = map PyStr.lower (filter PyPath.is_part ys).
Proof.
  induction ys as [|y ys IH]; [reflexivity|].
  cbn [map]. rewrite !filter_cons, IH.
  destruct (decide (PyPath.is_part y)) as [Hy|Hy];
    destruct (decide (PyPath.is_part (PyStr.lower y))) as [Hl|Hl];
    try reflexivity; exfalso.
  - apply Hl, is_part_lower, Hy.
  - apply Hy, is_part_lower, Hl.
Qed.

Lemma parts_lower x : PyPath.parts (PyStr.lower x) = map PyStr.lower (PyPath.parts x).
Proof. unfold PyPath.parts. rewrite split_lower. apply filter_is_part_lower. Qed.

Lemma name_lower x : PyPath.name (PyStr.lower x) = PyStr.lower (PyPath.name x).
Proof.
  unfold PyPath.name. rewrite parts_lower.
  change (map PyStr.lower (PyPath.parts x)) with (PyStr.lower <$> PyPath.parts x).
  rewrite fmap_last. destruct (last (PyPath.parts x)); reflexivity.
Qed.

Lemma rfind_from_lower x i :
  PyStr.rfind_from "." (PyStr.lower x) i = PyStr.rfind_from "." x i.
Proof.
  revert i. induction x as [|a x IH]; intros i; simpl; [reflexivity|].
  rewrite IH. destruct (0 <=? PyStr.rfind_from "." x (i + 1)); [reflexivity|].
  destruct (decide (a = "."%char)) as [->|Hne].
  - rewrite !bool_decide_eq_true_2 by reflexivity. reflexivity.
  - rewrite !bool_decide_eq_false_2; [reflexivity|assumption|].
    rewrite lower_char_dot. assumption.
Qed.

Lemma suffix_lower x : PyPath.suffix (PyStr.lower x) = PyStr.lower (PyPath.suffix x).
Proof.
  unfold PyPath.suffix. rewrite name_lower.
  unfold PyStr.rfind. rewrite rfind_from_lower.
  unfold PyStr.len. rewrite lower_length.
  destruct ((0 <? _) && _)%bool; [|reflexivity].
  unfold PyStr.slice_from, PyStr.lower. symmetry. apply fmap_drop.
Qed.

Lemma endswith1_suffix x suf : PyStr.endswith1 x suf = true <-> suf `suffix_of` x.
Proof.
  unfold PyStr.endswith1, PyStr.slice_last. rewrite bool_decide_eq_true. split.
  - intros <-. apply suffix_drop.
  - intros [k ->]. rewrite length_app.
    replace (length k + length suf - length suf)%nat with (length k) by lia.
    apply drop_app_length.
Qed.

Lemma endswith_two x a b :
  PyStr.endswith x [a; b] = true <-> a `suffix_of` x \/ b `suffix_of` x.
Proof.
  unfold PyStr.endswith. simpl. rewrite orb_false_r, orb_true_iff, !endswith1_suffix.
  reflexivity.
Qed.

Lemma slice_last_last_chars k x : PyStr.slice_last k x = last_chars k x.
Proof.
  unfold PyStr.slice_last, last_chars.
  rewrite reverse_take, length_reverse, reverse_involutive. reflexivity.
Qed.

Lemma suffix_same_length (a b x : str) :
  a `suffix_of` x -> b `suffix_of` x -> length a = length b -> a = b.
Proof.
  intros [ka Ha] [kb Hb] Hlen. rewrite Ha in Hb.
  apply app_inj_2 in Hb; [|assumption]. apply Hb.
Qed.

Lemma slice_last_suffix (x suf : str) k :
  suf `suffix_of` x -> (k <= length suf)%nat ->
  PyStr.slice_last k x = drop (length suf - k) suf.
Proof.
  intros [pre ->] Hk. unfold PyStr.slice_last.
  rewrite length_app, drop_app.
  replace (length pre + length suf - k)%nat with (length pre + (length suf - k))%nat by lia.
  rewrite drop_ge by lia.
  replace (length pre + (length suf - k) - length pre)%nat with (length suf - k)%nat by lia.
  reflexivity.
Qed.

(** * The classification of names *)

Lemma get_extension_refines filename : get_extension filename = logical_extension filename.
Proof.
  unfold get_extension, logical_extension.
  destruct (PyStr.endswith (PyStr.lower filename) [lit ".jpg.avif"; lit ".jpg.webp"]) eqn:E1.
  - apply endswith_two in E1. rewrite decide_True by exact E1.
    apply slice_last_last_chars.
  - rewrite decide_False by (rewrite <- endswith_two, E1; discriminate).
    destruct (PyStr.endswith (PyStr.lower filename) [lit ".png.webp"; lit ".png.avif"]) eqn:E2.
    + apply endswith_two in E2. rewrite decide_True by exact E2.
      apply slice_last_last_chars.
    + rewrite decide_False by (rewrite <- endswith_two, E2; discriminate).
      apply suffix_lower.
Qed.

Lemma elem_of_pair (x a b : str) : x ∈ [a; b] -> x = a \/ x = b.
Proof.
  intros H. apply elem_of_cons in H as [->|H]; [left; reflexivity|].
  apply list_elem_of_singleton in H as ->. right; reflexivity.
Qed.

Lemma get_extension_jpg_compound filename suf :
  suf ∈ [lit ".jpg.avif"; lit ".jpg.webp"] ->
  suf `suffix_of` PyStr.lower filename ->
  get_extension filename = suf.
Proof.
  intros Hin Hsuf. unfold get_extension.
  assert (PyStr.endswith (PyStr.lower filename) [lit ".jpg.avif"; lit ".jpg.webp"] = true) as ->.
  { apply endswith_two. apply elem_of_pair in Hin as [->| ->]; auto. }
  apply elem_of_pair in Hin as [->| ->];
    rewrite (slice_last_suffix _ _ 9 Hsuf) by (simpl; lia); reflexivity.
Qed.

Lemma get_extension_png_compound filename suf :
  suf ∈ [lit ".png.webp"; lit ".png.avif"] ->
  suf `suffix_of` PyStr.lower filename ->
  get_extension filename = drop 1 suf.
Proof.
  intros Hin Hsuf. unfold get_extension.
  assert (PyStr.endswith (PyStr.lower filename) [lit ".jpg.avif"; lit ".jpg.webp"] = false) as ->.
  { apply not_true_is_false. rewrite endswith_two. intros [H|H];
      pose proof (suffix_same_length _ _ _ H Hsuf) as Heq;
      apply elem_of_pair in Hin as [->| ->]; specialize (Heq eq_refl); discriminate Heq. }
  assert (PyStr.endswith (PyStr.lower filename) [lit ".png.webp"; lit ".png.avif"] = true) as ->.
  { apply endswith_two. apply elem_of_pair in Hin as [->| ->]; auto. }
  apply elem_of_pair in Hin as [->| ->];
    rewrite (slice_last_suffix _ _ 8 Hsuf) by (simpl; lia); reflexivity.
Qed.

Lemma is_image_iff filename :
  is_image filename = true <-> get_extension filename ∈ supported_formats.
Proof. unfold is_image. apply bool_decide_eq_true. Qed.

(** X3. A name that ends in one of the four compound suffixes is never a
    candidate. *)
Lemma compound_never_candidate filename suf :
  suf ∈ compound_suffixes -> suf `suffix_of` PyStr.lower filename ->
  is_image filename = false.
Proof.
  intros Hin Hsuf. unfold compound_suffixes in Hin.
  apply elem_of_cons in Hin as [->|Hin]; [|apply elem_of_cons in Hin as [->|Hin]].
  - unfold is_image. rewrite (get_extension_jpg_compound _ (lit ".jpg.avif")); 
      [reflexivity | left | assumption].
  - unfold is_image. rewrite (get_extension_jpg_compound _ (lit ".jpg.webp"));
      [reflexivity | right; left | assumption].
  - unfold is_image. rewrite (get_extension_png_compound _ suf Hin Hsuf).
    apply elem_of_pair in Hin as [->| ->]; reflexivity.
Qed.


(** C7. The logical extension is the last 9 characters for a name ending in
    [.jpg.avif] or [.jpg.webp], else the last 8 characters for one ending in
    [.png.webp] or [.png.avif], else the lowercased file-system suffix. *)
Theorem get_extension_classifies :
  (forall filename, get_extension filename = logical_extension filename) /\
  get_extension (lit "photo.jpg") = lit ".jpg" /\
  get_extension (lit "photo.jpg.avif") = lit ".jpg.avif" /\
  get_extension (lit "icon.PNG") = lit ".png" /\
  get_extension (lit "archive.tar.gz") = lit ".gz".
Proof.
  split; [exact get_extension_refines|].
  repeat split; vm_compute; reflexivity.
Qed.

(** C3, at the failing input. For a name ending in [.png.avif] or [.png.webp]
    the code returns the last 8 characters of a 9-character suffix, so the
    logical extension comes without its leading dot and is not the compound
    form; the [.jpg] forms keep theirs. No encoder branch matches the result. *)
Theorem png_compound_extension_loses_its_dot :
  get_extension (lit "shot.png.avif") = lit "png.avif" /\
  get_extension (lit "shot.png.webp") = lit "png.webp" /\
  get_extension (lit "shot.jpg.avif") = lit ".jpg.avif" /\
  is_image (lit "shot.png.avif") = false /\
  encoder_for (get_extension (lit "shot.png.avif")) 85 = None /\
  encoder_for (lit ".png.avif") 85 = Some (AVIF 85).
Proof. repeat split; vm_compute; reflexivity. Qed.

(** * Facts about path components *)

Lemma split_no_sep c (x : str) : c ∉ x -> PyStr.split c x = [x].
Proof.
  induction x as [|a x IH]; intros Hc; simpl; [reflexivity|].
  apply not_elem_of_cons in Hc as [Hne Hc].
  rewrite bool_decide_eq_false_2 by congruence.
  rewrite IH by assumption. reflexivity.
Qed.

Lemma split_elem_no_sep c (x y : str) : y ∈ PyStr.split c x -> c ∉ y.
Proof.
  revert y. induction x as [|a x IH]; intros y; simpl.
  - intros ->%list_elem_of_singleton. apply not_elem_of_nil.
  - case_bool_decide as Hac.
    + intros [->|Hy]%elem_of_cons; [apply not_elem_of_nil|auto].
    + destruct (PyStr.split c x) as [|p ps] eqn:E.
      * intros ->%list_elem_of_singleton. apply not_elem_of_cons. split; [congruence|].
        apply not_elem_of_nil.
      * intros [->|Hy]%elem_of_cons.
        -- apply not_elem_of_cons. split; [congruence|]. apply IH. left.
        -- apply IH. right. assumption.
Qed.

Lemma split_app_last c (a b : str) :
  c ∉ b ->
  exists init l, PyStr.split c a = init ++ [l] /\ PyStr.split c (a ++ b) = init ++ [l ++ b].
Proof.
  intros Hb. induction a as [|x a (init & l & E1 & E2)]; simpl.
  - exists [], []. rewrite split_no_sep by assumption. split; reflexivity.
  - case_bool_decide.
    + exists ([] :: init), l. rewrite E1, E2. split; reflexivity.
    + rewrite E1, E2. destruct init as [|p ps]; simpl.
      * exists [], (x :: l). split; reflexivity.
      * exists ((x :: p) :: ps), l. split; reflexivity.
Qed.

Lemma name_of_last_part (p : str) init l :
  PyStr.split "/" p = init ++ [l] -> PyPath.is_part l -> PyPath.name p = l.
Proof.
  intros E Hl. unfold PyPath.name, PyPath.parts. rewrite E, filter_app.
  rewrite (filter_cons_True _ l []) by assumption.
  rewrite filter_nil, last_snoc. reflexivity.
Qed.

Lemma name_cases (p : str) :
  PyPath.name p = [] \/ (PyPath.is_part (PyPath.name p) /\ "/"%char ∉ PyPath.name p).
Proof.
  unfold PyPath.name. destruct (last (PyPath.parts p)) as [l|] eqn:E; [right|left; reflexivity].
  apply last_Some_elem_of in E. unfold PyPath.parts in E.
  apply list_elem_of_filter in E as [Hpart Hin]. simpl. split; [assumption|].
  eapply split_elem_no_sep, Hin.
Qed.

Lemma name_idem (p : str) : PyPath.name (PyPath.name p) = PyPath.name p.
Proof.
  destruct (name_cases p) as [->|[Hpart Hsep]]; [reflexivity|].
  apply (name_of_last_part _ []); [|assumption].
  apply split_no_sep. assumption.
Qed.

Lemma suffix_in_name (x suf : str) :
  suf `suffix_of` x -> "/"%char ∉ suf -> PyPath.is_part suf -> suf `suffix_of` PyPath.name x.
Proof.
  intros [pre ->] Hsep [Hne Hdot].
  destruct (split_app_last "/" pre suf Hsep) as (init & l & _ & E).
  rewrite (name_of_last_part _ _ _ E); [eexists; reflexivity|].
  split.
  - destruct l; [assumption|discriminate].
  - destruct l as [|c l]; [assumption|].
    intros H. apply (f_equal (@length _)) in H. simpl in H. rewrite length_app in H.
    destruct suf; [congruence|simpl in H; lia].
Qed.

Lemma rfind_from_absent c (y : str) i : c ∉ y -> PyStr.rfind_from c y i = -1.
Proof.
  revert i. induction y as [|a y IH]; intros i Hc; simpl; [reflexivity|].
  apply not_elem_of_cons in Hc as [Hne Hc]. rewrite IH by assumption. simpl.
  rewrite bool_decide_eq_false_2 by congruence. reflexivity.
Qed.

Lemma rfind_from_last c (x y : str) i :
  0 <= i -> c ∉ y -> PyStr.rfind_from c (x ++ c :: y) i = i + Z.of_nat (length x).
Proof.
  revert i. induction x as [|a x IH]; intros i Hi Hc; simpl.
  - rewrite rfind_from_absent by assumption. simpl.
    rewrite bool_decide_eq_true_2 by reflexivity. lia.
  - rewrite IH by (try assumption; lia).
    destruct (0 <=? i + 1 + Z.of_nat (length x)) eqn:E; [lia|].
    apply Z.leb_gt in E. lia.
Qed.

Lemma suffix_of_stem (p stem e : str) :
  PyPath.name p = stem ++ "."%char :: e -> stem <> [] -> e <> [] -> "."%char ∉ e ->
  PyPath.suffix p = "."%char :: e.
Proof.
  intros Hname Hstem He Hdot. unfold PyPath.suffix. rewrite Hname.
  unfold PyStr.rfind. rewrite rfind_from_last by (try assumption; lia).
  unfold PyStr.len. rewrite length_app. simpl length.
  assert (0 < length stem)%nat by (destruct stem; [congruence|simpl; lia]).
  assert (0 < length e)%nat by (destruct e; [congruence|simpl; lia]).
  rewrite (proj2 (Z.ltb_lt _ _)) by lia. rewrite (proj2 (Z.ltb_lt _ _)) by lia.
  simpl. unfold PyStr.slice_from.
  replace (Z.to_nat (0 + Z.of_nat (length stem))) with (length stem) by lia.
  apply drop_app_length.
Qed.

(** The logical extension of a name [stem.ext] that ends in no compound suffix. *)
Lemma get_extension_plain (p stem e : str) :
  PyStr.lower (PyPath.name p) = stem ++ "."%char :: e ->
  stem <> [] -> e <> [] -> "."%char ∉ e ->
  (forall suf, suf ∈ compound_suffixes -> ~ suf `suffix_of` PyStr.lower (PyPath.name p)) ->
  get_extension p = "."%char :: e.
Proof.
  intros Hname Hstem He Hdot Hplain. unfold get_extension.
  assert (forall suf, suf ∈ compound_suffixes -> ~ suf `suffix_of` PyStr.lower p) as Hp.
  { intros suf Hin Hsuf. apply (Hplain suf Hin). rewrite <- name_lower.
    apply suffix_in_name; [assumption| |];
      unfold compound_suffixes in Hin;
      repeat (apply elem_of_cons in Hin as [->|Hin]); try (apply elem_of_nil in Hin; contradiction);
      vm_compute; repeat split; try discriminate;
      intros H; repeat (apply elem_of_cons in H as [H|H]; [discriminate H|]);
      apply elem_of_nil in H; exact H. }
  assert (PyStr.endswith (PyStr.lower p) [lit ".jpg.avif"; lit ".jpg.webp"] = false) as ->.
  { apply not_true_is_false. rewrite endswith_two.
    intros [H|H]; revert H; apply Hp; unfold compound_suffixes; set_solver. }
  assert (PyStr.endswith (PyStr.lower p) [lit ".png.webp"; lit ".png.avif"] = false) as ->.
  { apply not_true_is_false. rewrite endswith_two.
    intros [H|H]; revert H; apply Hp; unfold compound_suffixes; set_solver. }
  apply (suffix_of_stem _ stem); try assumption.
  rewrite name_lower. assumption.
Qed.

Lemma temp_path_neq (p : str) : p ++ lit ".tmp" <> p.
Proof.
  intros H. apply (f_equal (@length _)) in H. rewrite length_app in H. simpl in H. lia.
Qed.

Section Outcome.
Context (C : codec).

Local Abbreviation preamble := (preamble C).
Local Abbreviation compress_outcome := (compress_outcome C).

Lemma compress_try_preamble_fails p σ e :
  preamble σ p = Raise e -> compress_try C p (σ, None) = (Raise e, (σ, None)).
Proof.
  unfold preamble, compress_try.
  unfold bind at 1. unfold lift at 1. unfold Os.getsize. simpl.
  destruct (fs σ !! p) as [[orig|n]|] eqn:Hp; simpl.
  - unfold bind at 1. unfold lift at 1. unfold open_image. simpl. rewrite Hp.
    destruct (img_open C orig) as [img0|e0]; simpl; [|intros [= ->]; reflexivity].
    unfold bind at 1.
    case_bool_decide; simpl; [|discriminate].
    unfold lift at 1, flatten. simpl.
    destruct (img_flatten C img0 _); simpl; [discriminate|intros [= ->]; reflexivity].
  - unfold bind at 1. unfold lift at 1. unfold open_image. simpl. rewrite Hp.
    intros [= <-]; reflexivity.
  - intros [= <-]; reflexivity.
Qed.

Lemma compress_try_preamble_ok p σ orig img :
  preamble σ p = Return (orig, img) ->
  fs σ !! p = Some (File orig) /\
  compress_try C p (σ, None) =
    match chosen_encoder p with
    | None => (Return false, (σ, Some (p ++ lit ".tmp")))
    | Some enc =>
        (bind (lift (save C img (p ++ lit ".tmp") enc)) (fun _ =>
         bind (lift (Os.getsize (p ++ lit ".tmp"))) (fun compressed_size =>
         if compressed_size <? Z.of_nat (length orig) then
           bind (lift (Os.move (p ++ lit ".tmp") p)) (fun _ =>
           bind (lift (add_compressed_size compressed_size)) (fun _ => ret true))
         else
           bind (lift (Os.remove (p ++ lit ".tmp"))) (fun _ =>
           bind (lift (add_compressed_size (Z.of_nat (length orig)))) (fun _ => ret true)))))
          (σ, Some (p ++ lit ".tmp"))
    end.
Proof.
  unfold preamble, compress_try, chosen_encoder.
  unfold bind at 1. unfold lift at 1. unfold Os.getsize. simpl.
  destruct (fs σ !! p) as [[orig'|n]|] eqn:Hp; simpl; [|discriminate..].
  unfold bind at 1. unfold lift at 1. unfold open_image. simpl. rewrite Hp.
  destruct (img_open C orig') as [img0|e0]; simpl; [|discriminate].
  unfold bind at 1.
  case_bool_decide; simpl.
  - unfold lift at 1, flatten. simpl.
    destruct (img_flatten C img0 _); simpl; [|discriminate].
    intros [= -> ->]. split; [reflexivity|].
    unfold bind at 1, assign_temp_path, modify. simpl.
    destruct (encoder_for _ _); reflexivity.
  - intros [= -> ->]. split; [reflexivity|].
    unfold bind at 1, assign_temp_path, modify, ret. simpl.
    destruct (encoder_for _ _); reflexivity.
Qed.

Lemma save_not_dir σ t img enc :
  (forall n, fs σ !! t <> Some (Dir n)) ->
  save C img t enc σ =
    match img_save C img enc with
    | Saved data => (Return tt, set_fs (insert t (File data)) (emit (EvSave t enc) σ))
    | SaveFailed e (Some part) => (Raise e, set_fs (insert t (File part)) (emit (EvSave t enc) σ))
    | SaveFailed e None => (Raise e, emit (EvSave t enc) σ)
    end.
Proof.
  intros Hnd. unfold save. destruct (fs σ !! t) as [[d|n]|] eqn:E; try reflexivity.
  exfalso. apply (Hnd n). reflexivity.
Qed.

Lemma compress_image_outcome_ex p σ :
  exists tried fr r σ',
    compress_try C p (σ, None) = (tried, fr) /\
    compress_image C p σ = (r, σ') /\
    compress_outcome p σ tried r σ'.
Proof.
  assert (forall tried fr r σ',
            compress_try C p (σ, None) = (tried, fr) ->
            match tried with
            | Return b => (Return b, fr.1)
            | Raise e => compress_except p e fr.2 fr.1
            end = (r, σ') ->
            compress_outcome p σ tried r σ' ->
            exists tried fr r σ',
              compress_try C p (σ, None) = (tried, fr) /\
              compress_image C p σ = (r, σ') /\
              compress_outcome p σ tried r σ') as Hpack.
  { intros tried fr r σ' Htry Hfin Hout. exists tried, fr, r, σ'.
    split; [assumption|]. split; [|assumption].
    unfold compress_image. rewrite Htry. destruct tried; assumption. }
  destruct (preamble σ p) as [[orig img]|e] eqn:Hpre.
  2:{ eapply Hpack; [apply compress_try_preamble_fails; eassumption|reflexivity|].
      apply CoPrepareFails. assumption. }
  destruct (compress_try_preamble_ok _ _ _ _ Hpre) as [Hp Htry].
  rewrite Htry in Hpack |- *. clear Htry.
  destruct (chosen_encoder p) as [enc|] eqn:Henc.
  2:{ eapply Hpack; [reflexivity|reflexivity|]. eapply CoNoEncoder; eassumption. }
  set (temp := p ++ lit ".tmp") in *.
  assert (temp <> p) as Hne by apply temp_path_neq.
  destruct (fs σ !! temp) as [[d|n]|] eqn:Htemp.
  2:{ (* a directory sits at the temporary path *)
      eapply Hpack; [| |eapply CoTempIsDir; eassumption].
      - unfold bind at 1. unfold lift at 1. unfold save. cbn [fst snd]. rewrite Htemp.
        reflexivity.
      - run_steps. rewrite Htemp.
        rewrite bool_decide_eq_true_2 by (eexists; reflexivity).
        run_steps. rewrite Htemp, <- app_assoc. reflexivity. }
  all: assert (forall n, fs σ !! temp <> Some (Dir n)) as Hnd by (intros n; rewrite Htemp; discriminate).
  all: destruct (img_save C img enc) as [new|e [part|]] eqn:Hsave.
  all: try (destruct (Z.of_nat (length new) <? Z.of_nat (length orig)) eqn:Hcmp;
            (eapply Hpack;
            [ unfold bind at 1; unfold lift at 1; rewrite (save_not_dir _ _ _ _ Hnd), Hsave;
              run_steps; rewrite lookup_insert_eq, Hcmp; run_steps;
              rewrite ?lookup_insert_eq; rewrite ?lookup_insert_ne by assumption;
              rewrite ?Hp; run_steps; rewrite delete_insert_eq; reflexivity
            | reflexivity
            | first [ apply Z.ltb_lt in Hcmp;
                      eapply CoReplaced; try eassumption; lia
                    | apply Z.ltb_ge in Hcmp;
                      eapply CoKept; try eassumption; lia ] ])).
  all: (eapply Hpack;
        [ unfold bind at 1; unfold lift at 1; rewrite (save_not_dir _ _ _ _ Hnd), Hsave;
          reflexivity
        | | eapply CoSaveFails; eassumption ]); run_steps.
  - rewrite bool_decide_eq_true_2 by (rewrite lookup_insert_eq; eexists; reflexivity).
    run_steps. rewrite lookup_insert_eq. run_steps.
    rewrite delete_insert_eq, <- app_assoc. reflexivity.
  - rewrite bool_decide_eq_true_2 by (rewrite Htemp; eexists; reflexivity).
    run_steps. rewrite Htemp. run_steps. rewrite <- app_assoc. reflexivity.
  - rewrite bool_decide_eq_true_2 by (rewrite lookup_insert_eq; eexists; reflexivity).
    run_steps. rewrite lookup_insert_eq. run_steps.
    rewrite delete_insert_eq, <- app_assoc. reflexivity.
  - rewrite bool_decide_eq_false_2 by (rewrite Htemp; intros [? ?]; discriminate).
    run_steps. rewrite <- app_assoc, (delete_id (fs σ) temp Htemp). reflexivity.
Qed.

(** The call and its outcome, without the component-wise equations. *)
Lemma compress_image_outcome p σ :
  compress_outcome p σ (compress_try C p (σ, None)).1
    (compress_image C p σ).1 (compress_image C p σ).2.
Proof.
  destruct (compress_image_outcome_ex p σ) as (tried & fr & r & σ' & -> & -> & H). exact H.
Qed.

End Outcome.

Section Loop.
Context (C : codec).

Lemma preamble_file σ p orig img :
  preamble C σ p = Return (orig, img) -> fs σ !! p = Some (File orig).
Proof.
  unfold preamble. destruct (fs σ !! p) as [[d|n]|]; try discriminate.
  destruct (img_open C d); try discriminate.
  case_bool_decide; [destruct (img_flatten C _ _); try discriminate|];
    intros [= -> _]; reflexivity.
Qed.

(** What a call changes outside the statistics' byte count: nothing but the
    image and its temporary. *)
Lemma outcome_stats p σ tried r σ' :
  compress_outcome C p σ tried r σ' ->
  total_files (stats σ') = total_files (stats σ) /\
  compressed (stats σ') = compressed (stats σ) /\
  failed (stats σ') = failed (stats σ) /\
  original_size (stats σ') = original_size (stats σ) /\
  exists k, compressed_size (stats σ') = compressed_size (stats σ) + k /\
    ((k = 0 /\ r <> Return true) \/
     (r = Return true /\ exists orig, fs σ !! p = Some (File orig) /\
        (k = Z.of_nat (length orig) \/
         exists new : bytes, k = Z.of_nat (length new) /\ (length new < length orig)%nat))).
Proof.
  intros H. destruct H as [e He|orig img Hpre Henc|orig img enc n Hpre Henc Ht
                           |orig img enc e part Hpre Henc Ht Hs
                           |orig img enc new Hpre Henc Ht Hs Hlt
                           |orig img enc new Hpre Henc Ht Hs Hle];
    cbn [stats with_compressed_size total_files compressed failed original_size compressed_size];
    repeat split; try reflexivity.
  1-4: exists 0; split; [lia|left; split; [reflexivity|discriminate]].
  - exists (Z.of_nat (length new)). split; [reflexivity|]. right. split; [reflexivity|].
    exists orig. split; [eapply preamble_file; eassumption|]. right. eauto.
  - exists (Z.of_nat (length orig)). split; [reflexivity|]. right. split; [reflexivity|].
    exists orig. split; [eapply preamble_file; eassumption|]. left. reflexivity.
Qed.


(** After a successful call the image is a regular file again. *)
Lemma outcome_true_file p σ tried σ' :
  compress_outcome C p σ tried (Return true) σ' ->
  exists now, fs σ' !! p = Some (File now).
Proof.
  intros H. inversion H; subst; cbn [fs].
  - eexists. apply lookup_insert_eq.
  - eexists. rewrite lookup_delete_ne by apply temp_path_neq.
    eapply preamble_file. eassumption.
Qed.

(** The loop body, step by step. *)
Lemma process_one_eq i p σ :
  process_one C (i, p) σ =
    match fs σ !! p with
    | None => (Raise (FileNotFoundError p), σ)
    | Some e =>
        match compress_image C p (announced i p (entry_size e) σ) with
        | (Raise ex, σ3) => (Raise ex, σ3)
        | (Return true, σ3) =>
            match fs σ3 !! p with
            | None => (Raise (FileNotFoundError p), σ3)
            | Some e3 =>
                if entry_size e =? 0 then (Raise ZeroDivisionError, σ3)
                else (Return tt,
                      MkState (counted_compressed (stats σ3)) (fs σ3)
                        (trace σ3 ++
                         [EvPrint (MsgReduced
                            ((1 - inject_Z (entry_size e3) / inject_Z (entry_size e)) * 100)%Q)]))
            end
        | (Return false, σ3) =>
            (Return tt,
             MkState (counted_failed (stats σ3)) (fs σ3) (trace σ3 ++ [EvPrint MsgCross]))
        end
    end.
Proof.
  unfold process_one. unfold bind at 1. unfold Os.getsize at 1.
  destruct (fs σ !! p) as [e|] eqn:Hp; [|reflexivity].
  assert (forall n, (n = entry_size e) ->
    (add_original_size n;; σ0 <- get;;
       print (MsgProgress i (total_files (stats σ0)) (PyPath.name p));;
       ok <- compress_image C p;;
       (if ok then
          new_size <- Os.getsize p;; ratio <- true_div new_size n;;
          print (MsgReduced ((1 - ratio) * 100)%Q);; incr_compressed
        else print MsgCross;; incr_failed))%py σ =
    match compress_image C p (announced i p (entry_size e) σ) with
    | (Raise ex, σ3) => (Raise ex, σ3)
    | (Return true, σ3) =>
        match fs σ3 !! p with
        | None => (Raise (FileNotFoundError p), σ3)
        | Some e3 =>
            if entry_size e =? 0 then (Raise ZeroDivisionError, σ3)
            else (Return tt,
                  MkState (counted_compressed (stats σ3)) (fs σ3)
                    (trace σ3 ++
                     [EvPrint (MsgReduced
                        ((1 - inject_Z (entry_size e3) / inject_Z (entry_size e)) * 100)%Q)]))
        end
    | (Return false, σ3) =>
        (Return tt,
         MkState (counted_failed (stats σ3)) (fs σ3) (trace σ3 ++ [EvPrint MsgCross]))
    end) as Hrest.
  { intros n ->.
    unfold bind at 1. unfold add_original_size, modify at 1.
    unfold bind at 1. unfold get at 1.
    unfold bind at 1. unfold print at 1, modify at 1.
    unfold bind at 1.
    change (emit _ (set_stats _ σ)) with (announced i p (entry_size e) σ).
    destruct (compress_image C p (announced i p (entry_size e) σ)) as [[[|]|ex] σ3];
      [| |reflexivity].
    - unfold bind at 1. unfold Os.getsize.
      destruct (fs σ3 !! p) as [e3|] eqn:H3; [|reflexivity].
      assert (forall m, (ratio <- true_div m (entry_size e);;
                 print (MsgReduced ((1 - ratio) * 100)%Q);; incr_compressed)%py σ3 =
              if entry_size e =? 0 then (Raise ZeroDivisionError, σ3)
              else (Return tt,
                    MkState (counted_compressed (stats σ3)) (fs σ3)
                      (trace σ3 ++
                       [EvPrint (MsgReduced ((1 - inject_Z m / inject_Z (entry_size e)) * 100)%Q)])))
        as Hdiv.
      { intros m. unfold bind at 1. unfold true_div.
        destruct (entry_size e =? 0); reflexivity. }
      destruct e3; apply Hdiv.
    - reflexivity. }
  destruct e; apply Hrest; reflexivity.
Qed.

End Loop.

Section PerFile.
Context (C : codec).



(** A call on a path without encoder: [False], nothing written, nothing counted. *)
Lemma no_encoder_call p σ :
  chosen_encoder p = None ->
  exists σ', compress_image C p σ = (Return false, σ') /\
    fs σ' = fs σ /\ stats σ' = stats σ /\
    (σ' = σ \/ exists e, preamble C σ p = Raise e /\
                 trace σ' = trace σ ++ [EvPrint (MsgError p e)]).
Proof.
  intros Hnone.
  destruct (compress_image_outcome_ex C p σ) as (tried & fr & r & σ' & _ & Himg & Hout).
  rewrite Himg.
  inversion Hout; subst; try congruence; eexists; (split; [reflexivity|]); cbn [fs stats trace].
  - repeat split. right. eauto.
  - repeat split. left. reflexivity.
Qed.

(** The loop body on a file that [compress_image] reports as not done. *)
Lemma process_one_not_done i p σ e σ3 :
  fs σ !! p = Some e ->
  compress_image C p (announced i p (entry_size e) σ) = (Return false, σ3) ->
  process_one C (i, p) σ =
    (Return tt, MkState (counted_failed (stats σ3)) (fs σ3) (trace σ3 ++ [EvPrint MsgCross])).
Proof. intros Hp Himg. rewrite process_one_eq, Hp, Himg. reflexivity. Qed.

Lemma no_encoder_counted_failed i p σ e :
  chosen_encoder p = None -> fs σ !! p = Some e ->
  exists σ', process_one C (i, p) σ = (Return tt, σ') /\
    fs σ' = fs σ /\
    failed (stats σ') = failed (stats σ) + 1 /\
    compressed (stats σ') = compressed (stats σ) /\
    compressed_size (stats σ') = compressed_size (stats σ) /\
    original_size (stats σ') = original_size (stats σ) + entry_size e /\
    last (trace σ') = Some (EvPrint MsgCross).
Proof.
  intros Hnone Hp.
  destruct (no_encoder_call p (announced i p (entry_size e) σ) Hnone)
    as (σ3 & Himg & Hfs & Hst & _).
  rewrite (process_one_not_done _ _ _ _ _ Hp Himg).
  eexists. split; [reflexivity|]. cbn [fs stats trace counted_failed failed compressed
    compressed_size original_size].
  rewrite Hfs, Hst. cbn. repeat split. apply last_snoc.
Qed.

Lemma plain_avif_extension p : plain_avif_name p -> get_extension p = lit ".avif".
Proof.
  intros [(stem & Hstem & Hname) Hplain].
  apply (get_extension_plain p stem (lit "avif")); try assumption; try discriminate.
  vm_compute. intros H. repeat (apply elem_of_cons in H as [H|H]; [discriminate H|]).
  apply elem_of_nil in H. exact H.
Qed.

Lemma plain_avif_candidate p : plain_avif_name p -> is_image (PyPath.name p) = true.
Proof.
  intros [(stem & Hstem & Hname) Hplain]. unfold is_image.
  rewrite (get_extension_plain (PyPath.name p) stem (lit "avif")); try reflexivity;
    rewrite ?name_idem; try assumption; try discriminate.
  vm_compute. intros H. repeat (apply elem_of_cons in H as [H|H]; [discriminate H|]).
  apply elem_of_nil in H. exact H.
Qed.

(** C4. A plain [.avif] file is a candidate, has no encoder, comes back [False]
    with the disk untouched and no [save] attempted, and is counted as failed. *)
Theorem plain_avif_selected_then_failed p :
  plain_avif_name p ->
  is_image (PyPath.name p) = true /\
  get_extension p = lit ".avif" /\
  chosen_encoder p = None /\
  (forall σ, exists σ', compress_image C p σ = (Return false, σ') /\
     fs σ' = fs σ /\ stats σ' = stats σ /\
     (forall t enc, EvSave t enc ∈ trace σ' -> EvSave t enc ∈ trace σ)) /\
  (forall σ i e, fs σ !! p = Some e ->
     exists σ', process_one C (i, p) σ = (Return tt, σ') /\
       fs σ' = fs σ /\
       failed (stats σ') = failed (stats σ) + 1 /\
       compressed (stats σ') = compressed (stats σ) /\
       last (trace σ') = Some (EvPrint MsgCross)).
Proof.
  intros Hplain.
  pose proof (plain_avif_extension p Hplain) as Hext.
  assert (chosen_encoder p = None) as Hnone by (unfold chosen_encoder; rewrite Hext; reflexivity).
  split; [apply plain_avif_candidate; assumption|]. split; [assumption|]. split; [assumption|].
  split.
  - intros σ. destruct (no_encoder_call p σ Hnone) as (σ' & Himg & Hfs & Hst & Htr).
    exists σ'. repeat split; try assumption.
    intros t enc Hin. destruct Htr as [->|(e & _ & Htr)]; [assumption|].
    rewrite Htr in Hin. apply elem_of_app in Hin as [Hin|Hin]; [assumption|].
    apply list_elem_of_singleton in Hin. discriminate Hin.
  - intros σ i e Hp.
    destruct (no_encoder_counted_failed i p σ e Hnone Hp) as (σ' & H1 & H2 & H3 & H4 & _ & _ & H5).
    exists σ'. repeat split; assumption.
Qed.

(** C6, as the code has it. A path whose extension has no encoder branch comes
    back [False] with nothing printed, written or counted by [compress_image];
    [False] is also what every caught failure returns, and the caller counts
    the file as failed. *)
Theorem no_encoder_is_counted_as_failure p :
  chosen_encoder p = None ->
  (forall σ orig img, preamble C σ p = Return (orig, img) ->
     compress_image C p σ = (Return false, σ)) /\
  (forall σ, (compress_image C p σ).1 = Return false) /\
  (forall σ i e, fs σ !! p = Some e ->
     exists σ', process_one C (i, p) σ = (Return tt, σ') /\
       failed (stats σ') = failed (stats σ) + 1 /\
       compressed (stats σ') = compressed (stats σ) /\
       last (trace σ') = Some (EvPrint MsgCross)).
Proof.
  intros Hnone. split; [|split].
  - intros σ orig img Hpre.
    destruct (no_encoder_call p σ Hnone) as (σ' & Himg & _ & _ & [->|(e & He & _)]);
      [assumption|congruence].
  - intros σ. destruct (no_encoder_call p σ Hnone) as (σ' & -> & _). reflexivity.
  - intros σ i e Hp.
    destruct (no_encoder_counted_failed i p σ e Hnone Hp) as (σ' & H1 & _ & H3 & H4 & _ & _ & H5).
    exists σ'. repeat split; assumption.
Qed.


(** Whenever no directory sits at the temporary path, the call returns. *)
Lemma compress_image_returns p σ :
  (forall n, fs σ !! (p ++ lit ".tmp") <> Some (Dir n)) ->
  exists b, (compress_image C p σ).1 = Return b.
Proof.
  intros Hnd.
  destruct (compress_image_outcome_ex C p σ) as (tried & fr' & r & σ' & _ & -> & Hout).
  inversion Hout; subst; cbn [fst]; eauto. exfalso. eapply Hnd. eassumption.
Qed.

(** C9. The percentage is computed without a guard: when the recorded original
    size is 0 and [compress_image] reports success, the division raises. *)
Theorem zero_size_success_divides_by_zero i p σ e :
  fs σ !! p = Some e -> entry_size e = 0 ->
  (compress_image C p (announced i p 0 σ)).1 = Return true ->
  Os.getsize p σ = (Return 0, σ) /\
  (forall new_size, @true_div state new_size 0 = raise ZeroDivisionError) /\
  process_one C (i, p) σ = (Raise ZeroDivisionError, (compress_image C p (announced i p 0 σ)).2).
Proof.
  intros Hp Hzero Hok. split; [|split].
  - unfold Os.getsize. rewrite Hp. destruct e; cbn in Hzero; rewrite Hzero; reflexivity.
  - reflexivity.
  - rewrite process_one_eq, Hp, Hzero.
    pose proof (compress_image_outcome C p (announced i p 0 σ)) as Hout.
    destruct (compress_image C p (announced i p 0 σ)) as [r σ3]. cbn [fst snd] in *. subst r.
    destruct (outcome_true_file C _ _ _ _ Hout) as [now ->]. reflexivity.
Qed.

End PerFile.

(** * The loop and the whole run *)

Lemma for_each_preserves {A} (R : state -> state -> Prop) (body : A -> M state unit) :
  (forall σ, R σ σ) -> (forall a b c, R a b -> R b c -> R a c) ->
  (forall x σ, R σ (body x σ).2) ->
  forall xs σ, R σ (for_each xs body σ).2.
Proof.
  intros Hrefl Htrans Hstep xs. induction xs as [|x xs IH]; intros σ; simpl.
  - apply Hrefl.
  - unfold bind. pose proof (Hstep x σ) as H1.
    destruct (body x σ) as [[[]|e] σ1]; cbn [snd] in *; [|assumption].
    eapply Htrans; [exact H1|apply IH].
Qed.

Lemma for_each_returns {A} (I : state -> Z) (body : A -> M state unit) :
  (forall x σ σ', body x σ = (Return tt, σ') -> I σ' = I σ + 1) ->
  forall xs σ σ', for_each xs body σ = (Return tt, σ') ->
    I σ' = I σ + Z.of_nat (length xs).
Proof.
  intros Hstep xs. induction xs as [|x xs IH]; intros σ σ'; simpl.
  - intros [= <-]. lia.
  - unfold bind. destruct (body x σ) as [[[]|e] σ1] eqn:E; [|discriminate].
    intros H. rewrite (IH _ _ H), (Hstep _ _ _ E). lia.
Qed.

Lemma enumerate_length {A} (xs : list A) k : length (enumerate xs k) = length xs.
Proof. revert k. induction xs; intros k; simpl; [reflexivity|]. rewrite IHxs. reflexivity. Qed.

Section Run.
Context (C : codec).

Lemma entry_size_nonneg e : 0 <= entry_size e.
Proof. destruct e; simpl; lia. Qed.

(** One pass of the loop body, whatever its end, on a regular file. *)
Lemma process_one_file_sizes i p σ e :
  fs σ !! p = Some e ->
  let σ' := (process_one C (i, p) σ).2 in
  original_size (stats σ') = original_size (stats σ) + entry_size e /\
  total_files (stats σ') = total_files (stats σ) /\
  exists k, compressed_size (stats σ') = compressed_size (stats σ) + k /\
    (k = 0 \/
     exists orig, e = File orig /\
       (k = Z.of_nat (length orig) \/
        exists new : bytes, k = Z.of_nat (length new) /\ (length new < length orig)%nat)) /\
    (failed (stats σ') = failed (stats σ) + 1 -> k = 0) /\
    (failed (stats σ') = failed (stats σ) \/ failed (stats σ') = failed (stats σ) + 1).
Proof.
  intros Hp. rewrite process_one_eq, Hp.
  destruct (compress_image_outcome_ex C p (announced i p (entry_size e) σ))
    as (tried & fr & r & σ3 & _ & -> & Hout).
  destruct (outcome_stats C _ _ _ _ _ Hout) as (Ht & Hc & Hf & Ho & k & Hk & Hcases).
  cbn [announced stats fs total_files compressed failed original_size compressed_size] in *.
  assert (k = 0 \/
     exists orig, e = File orig /\
       (k = Z.of_nat (length orig) \/
        exists new : bytes, k = Z.of_nat (length new) /\ (length new < length orig)%nat)) as Hk'.
  { destruct Hcases as [[-> _]|(_ & orig & Horig & Hor)]; [left; reflexivity|].
    right. exists orig. rewrite Hp in Horig. injection Horig as ->. split; [reflexivity|exact Hor]. }
  destruct r as [[|]|ex]; cbn [snd].
  - destruct (fs σ3 !! p); [destruct (entry_size e =? 0)|];
      cbn [snd stats counted_compressed total_files failed original_size compressed_size];
      (split; [lia|]); (split; [lia|]); exists k; (split; [lia|]); (split; [exact Hk'|]);
      (split; [lia|left; lia]).
  - cbn [stats counted_failed total_files failed original_size compressed_size].
    split; [lia|]. split; [lia|]. exists k. split; [lia|]. split; [exact Hk'|].
    split; [|right; lia]. intros _.
    destruct Hcases as [[-> _]|(Hr & _)]; [reflexivity|discriminate Hr].
  - split; [lia|]. split; [lia|]. exists k. split; [lia|]. split; [exact Hk'|].
    split; [lia|left; lia].
Qed.

Lemma process_one_sizes item σ : sizes_grow_within σ (process_one C item σ).2.
Proof.
  destruct item as [i p]. unfold sizes_grow_within.
  destruct (fs σ !! p) as [e|] eqn:Hp.
  - destruct (process_one_file_sizes i p σ e Hp) as (Ho & _ & k & Hk & Hcases & _).
    rewrite Ho, Hk. pose proof (entry_size_nonneg e).
    destruct Hcases as [->|(orig & -> & [->|(new & -> & Hlt)])]; simpl in *; lia.
  - rewrite process_one_eq, Hp. cbn [snd]. lia.
Qed.

(** The loop body on a file the encoder writes: the original size goes to
    [original_size], and [compressed_size] receives the new size when it is
    strictly smaller, else the original size; the file ends as the one or the
    other. *)
Lemma process_one_encoded i p σ0 orig img enc new :
  preamble C σ0 p = Return (orig, img) ->
  chosen_encoder p = Some enc ->
  (forall n, fs σ0 !! (p ++ lit ".tmp") <> Some (Dir n)) ->
  img_save C img enc = Saved new ->
  original_size (stats (process_one C (i, p) σ0).2)
    = original_size (stats σ0) + Z.of_nat (length orig) /\
  compressed_size (stats (process_one C (i, p) σ0).2)
    = compressed_size (stats σ0)
      + Z.of_nat (if (length new <? length orig)%nat then length new else length orig) /\
  fs (process_one C (i, p) σ0).2 !! p
    = Some (File (if (length new <? length orig)%nat then new else orig)).
Proof.
  intros Hpre Henc Hnd Hsave.
  pose proof (preamble_file C _ _ _ _ Hpre) as Hp.
  rewrite process_one_eq, Hp. cbn [entry_size].
  destruct (compress_image_outcome_ex C p (announced i p (Z.of_nat (length orig)) σ0))
    as (tried & fr & r & σ3 & _ & -> & Hout).
  assert (stats σ3 = with_compressed_size
                       (Z.of_nat (if (length new <? length orig)%nat
                                  then length new else length orig))
                       (stats (announced i p (Z.of_nat (length orig)) σ0)) /\
          fs σ3 !! p = Some (File (if (length new <? length orig)%nat then new else orig)) /\
          r = Return true) as (Hst & Hfs & ->).
  { destruct Hout as [e He|orig' img' Hpre' Henc'|orig' img' enc' n' Hpre' Henc' Ht
                 |orig' img' enc' e part Hpre' Henc' Ht Hs
                 |orig' img' enc' new' Hpre' Henc' Ht Hs Hlt
                 |orig' img' enc' new' Hpre' Henc' Ht Hs Hle];
      try change (preamble C (announced i p (Z.of_nat (length orig)) σ0) p)
        with (preamble C σ0 p) in *;
      cbn [announced fs] in *.
    - exfalso. congruence.
    - exfalso. congruence.
    - exfalso. eapply Hnd, Ht.
    - exfalso. rewrite Hpre in Hpre'. injection Hpre' as <- <-.
      rewrite Henc in Henc'. injection Henc' as <-. congruence.
    - rewrite Hpre in Hpre'. injection Hpre' as <- <-.
      rewrite Henc in Henc'. injection Henc' as <-.
      rewrite Hsave in Hs. injection Hs as <-.
      apply Nat.ltb_lt in Hlt. rewrite Hlt. cbn [stats fs].
      split; [reflexivity|]. split; [apply lookup_insert_eq|reflexivity].
    - rewrite Hpre in Hpre'. injection Hpre' as <- <-.
      rewrite Henc in Henc'. injection Henc' as <-.
      rewrite Hsave in Hs. injection Hs as <-.
      apply Nat.ltb_ge in Hle. rewrite Hle. cbn [stats fs].
      split; [reflexivity|]. split; [|reflexivity].
      rewrite lookup_delete_ne by apply temp_path_neq. exact Hp. }
  rewrite Hfs.
  destruct (Z.of_nat (length orig) =? 0); cbn [snd stats fs counted_compressed
    original_size compressed_size]; rewrite Hst;
    cbn [with_compressed_size announced stats original_size compressed_size];
    auto.
Qed.

(** The loop body on a file that fails: it does not open, or its extension
    has no encoder, or the encoder raises. Nothing goes to [compressed_size],
    the file is as it was, and the failure is counted. *)
Lemma process_one_failed i p σ0 orig :
  fs σ0 !! p = Some (File orig) ->
  (exists e, preamble C σ0 p = Raise e) \/
  chosen_encoder p = None \/
  (exists img enc e part,
     preamble C σ0 p = Return (orig, img) /\ chosen_encoder p = Some enc /\
     (forall n, fs σ0 !! (p ++ lit ".tmp") <> Some (Dir n)) /\
     img_save C img enc = SaveFailed e part) ->
  original_size (stats (process_one C (i, p) σ0).2)
    = original_size (stats σ0) + Z.of_nat (length orig) /\
  compressed_size (stats (process_one C (i, p) σ0).2) = compressed_size (stats σ0) /\
  failed (stats (process_one C (i, p) σ0).2) = failed (stats σ0) + 1 /\
  fs (process_one C (i, p) σ0).2 !! p = Some (File orig).
Proof.
  intros Hp Hwhy.
  rewrite process_one_eq, Hp. cbn [entry_size].
  destruct (compress_image_outcome_ex C p (announced i p (Z.of_nat (length orig)) σ0))
    as (tried & fr & r & σ3 & _ & -> & Hout).
  assert (stats σ3 = stats (announced i p (Z.of_nat (length orig)) σ0) /\
          fs σ3 !! p = Some (File orig) /\ r = Return false) as (Hst & Hfs & ->).
  { destruct Hout as [e He|orig' img' Hpre' Henc'|orig' img' enc' n' Hpre' Henc' Ht
                 |orig' img' enc' e part Hpre' Henc' Ht Hs
                 |orig' img' enc' new' Hpre' Henc' Ht Hs Hlt
                 |orig' img' enc' new' Hpre' Henc' Ht Hs Hle];
      try change (preamble C (announced i p (Z.of_nat (length orig)) σ0) p)
        with (preamble C σ0 p) in *;
      cbn [announced fs stats] in *.
    - auto.
    - auto.
    - exfalso.
      destruct Hwhy as [[e He]|[Hnone|(img & enc & e & part & Hpre & Henc & Hnd & Hs')]];
        [congruence|congruence|eapply Hnd, Ht].
    - split; [reflexivity|]. split; [|reflexivity].
      rewrite lookup_delete_ne by apply temp_path_neq. exact Hp.
    - exfalso. destruct Hwhy as [[e He]|[Hnone|(img & enc & e & part & Hpre & Henc & _ & Hs')]];
        congruence.
    - exfalso. destruct Hwhy as [[e He]|[Hnone|(img & enc & e & part & Hpre & Henc & _ & Hs')]];
        congruence. }
  cbn [snd stats fs counted_failed original_size compressed_size failed].
  rewrite Hst. cbn [announced stats original_size compressed_size failed]. auto.
Qed.

Lemma process_one_counts item σ σ' :
  process_one C item σ = (Return tt, σ') ->
  compressed (stats σ') + failed (stats σ') = compressed (stats σ) + failed (stats σ) + 1 /\
  total_files (stats σ') = total_files (stats σ).
Proof.
  destruct item as [i p]. rewrite process_one_eq.
  destruct (fs σ !! p) as [e|] eqn:Hp; [|discriminate].
  destruct (compress_image_outcome_ex C p (announced i p (entry_size e) σ))
    as (tried & fr & r & σ3 & _ & -> & Hout).
  destruct (outcome_stats C _ _ _ _ _ Hout) as (Ht & Hc & Hf & _).
  cbn [announced stats total_files compressed failed] in *.
  destruct r as [[|]|ex]; [| |discriminate].
  - destruct (fs σ3 !! p); [destruct (entry_size e =? 0)|]; try discriminate.
    intros [= <-]. cbn. lia.
  - intros [= <-]. cbn. lia.
Qed.

(** The run, step by step. *)
Lemma process_folder_eq folder σ :
  process_folder C folder σ =
    match fs σ !! folder with
    | None => (Return false, emit (EvPrint (MsgNoFolder folder)) σ)
    | Some _ =>
        if bool_decide (image_files_of σ folder = [])
        then (Return false, emit (EvPrint MsgNoImage) σ)
        else
          match for_each (enumerate (image_files_of σ folder) 1) (process_one C)
                  (started (Z.of_nat (length (image_files_of σ folder))) σ) with
          | (Return _, σ') => (Return true, σ')
          | (Raise e, σ') => (Raise e, σ')
          end
    end.
Proof.
  unfold process_folder. unfold bind at 1. unfold Os.exists_.
  destruct (fs σ !! folder) as [e|] eqn:Hf.
  - rewrite bool_decide_eq_true_2 by (eexists; reflexivity). cbn [negb].
    unfold bind at 1. unfold get at 1.
    case_bool_decide; [reflexivity|].
    unfold bind at 1. unfold set_total_files, modify at 1.
    unfold bind at 1. unfold print at 1, modify at 1.
    unfold bind at 1.
    change (emit _ (set_stats _ σ)) with (started (Z.of_nat (length (image_files_of σ folder))) σ).
    destruct (for_each _ _ _) as [[[]|ex] σ']; reflexivity.
  - rewrite bool_decide_eq_false_2 by (intros [? ?]; discriminate). reflexivity.
Qed.

Lemma process_folder_sizes folder σ : sizes_grow_within σ (process_folder C folder σ).2.
Proof.
  rewrite process_folder_eq.
  destruct (fs σ !! folder); [|unfold sizes_grow_within; cbn; lia].
  case_bool_decide; [unfold sizes_grow_within; cbn; lia|].
  pose proof (for_each_preserves sizes_grow_within (process_one C)) as Hloop.
  specialize (Hloop ltac:(intros ?; unfold sizes_grow_within; lia)
                    ltac:(intros ? ? ?; unfold sizes_grow_within; lia)
                    process_one_sizes
                    (enumerate (image_files_of σ folder) 1)
                    (started (Z.of_nat (length (image_files_of σ folder))) σ)).
  destruct (for_each _ _ _) as [[[]|ex] σ']; cbn [snd] in *;
    unfold sizes_grow_within in *; cbn [started stats original_size compressed_size] in Hloop; lia.
Qed.

Lemma print_summary_stats σ : stats (print_summary σ).2 = stats σ /\ exists u, (print_summary σ).1 = Return u.
Proof.
  unfold print_summary, bind, print, modify, get, ret, emit, true_div, raise.
  cbn [fst snd stats].
  destruct (0 <? original_size (stats σ)) eqn:E; cbn [fst snd stats]; [|eauto].
  apply Z.ltb_lt in E.
  destruct (original_size (stats σ) =? 0) eqn:E0; [apply Z.eqb_eq in E0; lia|].
  cbn [fst snd stats]. eauto.
Qed.

Lemma main_stats folder disk :
  stats (main C folder disk).2
    = stats (process_folder C (PyPath.normalize folder) (fresh disk)).2.
Proof.
  unfold main. fold (fresh disk). unfold bind at 1.
  destruct (process_folder C (PyPath.normalize folder) (fresh disk)) as [[[|]|e] σ'];
    cbn [snd]; try reflexivity.
  unfold bind. destruct (print_summary_stats σ') as [Hst [u Hu]].
  destruct (print_summary σ') as [r σ'']. cbn [fst snd] in *. subst r. cbn. assumption.
Qed.

(** C2. Over a run the compressed total grows by no more than the original
    total, so it never exceeds it when it did not before (and in the script it
    starts from zero). Per file the original size goes to [original_size].
    When the encoder writes its output, [compressed_size] receives the size of
    that output if it is strictly smaller than the original, and the original
    size otherwise, and the file ends as the one or the other. When the file
    does not open, has no encoder, or the encoder raises, [compressed_size]
    receives nothing and the failure is counted. In every case what
    [compressed_size] receives is one of these three. *)
Theorem compressed_size_never_exceeds_original folder σ :
  let σ' := (process_folder C folder σ).2 in
  compressed_size (stats σ') - compressed_size (stats σ)
    <= original_size (stats σ') - original_size (stats σ) /\
  (compressed_size (stats σ) <= original_size (stats σ) ->
   compressed_size (stats σ') <= original_size (stats σ')) /\
  (forall disk,
     compressed_size (stats (main C folder disk).2)
       <= original_size (stats (main C folder disk).2)) /\
  (forall i p σ0 orig, fs σ0 !! p = Some (File orig) ->
     let σ1 := (process_one C (i, p) σ0).2 in
     original_size (stats σ1) = original_size (stats σ0) + Z.of_nat (length orig) /\
     exists k, compressed_size (stats σ1) = compressed_size (stats σ0) + k /\
       (k = 0 \/ k = Z.of_nat (length orig) \/
        exists new : bytes, k = Z.of_nat (length new) /\ (length new < length orig)%nat) /\
       (failed (stats σ1) = failed (stats σ0) + 1 -> k = 0)) /\
  (forall i p σ0 orig img enc new,
     preamble C σ0 p = Return (orig, img) ->
     chosen_encoder p = Some enc ->
     (forall n, fs σ0 !! (p ++ lit ".tmp") <> Some (Dir n)) ->
     img_save C img enc = Saved new ->
     original_size (stats (process_one C (i, p) σ0).2)
       = original_size (stats σ0) + Z.of_nat (length orig) /\
     compressed_size (stats (process_one C (i, p) σ0).2)
       = compressed_size (stats σ0)
         + Z.of_nat (if (length new <? length orig)%nat then length new else length orig) /\
     fs (process_one C (i, p) σ0).2 !! p
       = Some (File (if (length new <? length orig)%nat then new else orig))) /\
  (forall i p σ0 orig,
     fs σ0 !! p = Some (File orig) ->
     (exists e, preamble C σ0 p = Raise e) \/
     chosen_encoder p = None \/
     (exists img enc e part,
        preamble C σ0 p = Return (orig, img) /\ chosen_encoder p = Some enc /\
        (forall n, fs σ0 !! (p ++ lit ".tmp") <> Some (Dir n)) /\
        img_save C img enc = SaveFailed e part) ->
     original_size (stats (process_one C (i, p) σ0).2)
       = original_size (stats σ0) + Z.of_nat (length orig) /\
     compressed_size (stats (process_one C (i, p) σ0).2) = compressed_size (stats σ0) /\
     failed (stats (process_one C (i, p) σ0).2) = failed (stats σ0) + 1 /\
     fs (process_one C (i, p) σ0).2 !! p = Some (File orig)).
Proof.
  pose proof (process_folder_sizes folder σ) as Hrun. unfold sizes_grow_within in Hrun.
  cbn zeta. split; [exact Hrun|]. split; [lia|]. split; [|split; [|split]].
  - intros disk. rewrite main_stats.
    pose proof (process_folder_sizes (PyPath.normalize folder) (fresh disk)) as H.
    unfold sizes_grow_within in H. cbn [fresh stats stats_init compressed_size original_size] in H.
    lia.
  - intros i p σ0 orig Hp.
    destruct (process_one_file_sizes i p σ0 _ Hp) as (Ho & _ & k & Hk & Hcases & Hfail & _).
    split; [exact Ho|]. exists k. split; [exact Hk|]. split; [|exact Hfail].
    destruct Hcases as [->|(orig' & [= <-] & [->|Hnew])]; auto.
  - intros i p σ0 orig img enc new. apply process_one_encoded.
  - intros i p σ0 orig. apply process_one_failed.
Qed.

(** The returns of [process_folder]. It returns [False] exactly when the
    folder is missing or holds no candidate; it then prints one message and
    changes nothing else, and the script ends with status 0. In every other
    case each candidate goes through the loop body in turn; a loop that
    completes gives [True] with every candidate counted. *)
Theorem process_folder_outcomes folder σ :
  (fs σ !! folder = None ->
   process_folder C folder σ = (Return false, emit (EvPrint (MsgNoFolder folder)) σ)) /\
  (fs σ !! folder <> None -> image_files_of σ folder = [] ->
   process_folder C folder σ = (Return false, emit (EvPrint MsgNoImage) σ)) /\
  ((process_folder C folder σ).1 = Return false ->
   fs σ !! folder = None \/ image_files_of σ folder = []) /\
  (forall typed disk, disk !! PyPath.normalize typed = None ->
   main C typed disk =
     (0, MkState stats_init disk
           [EvPrint (MsgNoFolder (PyPath.normalize typed)); EvPrint MsgNotDone])) /\
  (forall typed disk, disk !! PyPath.normalize typed <> None ->
   image_files_of (fresh disk) (PyPath.normalize typed) = [] ->
   main C typed disk =
     (0, MkState stats_init disk [EvPrint MsgNoImage; EvPrint MsgNotDone])) /\
  (fs σ !! folder <> None -> image_files_of σ folder <> [] ->
   process_folder C folder σ =
     match for_each (enumerate (image_files_of σ folder) 1) (process_one C)
             (started (Z.of_nat (length (image_files_of σ folder))) σ) with
     | (Return _, σ') => (Return true, σ')
     | (Raise e, σ') => (Raise e, σ')
     end) /\
  (forall b σ', process_folder C folder σ = (Return b, σ') ->
   fs σ !! folder <> None -> image_files_of σ folder <> [] ->
   b = true /\
   total_files (stats σ') = Z.of_nat (length (image_files_of σ folder)) /\
   compressed (stats σ') + failed (stats σ')
     = compressed (stats σ) + failed (stats σ)
       + Z.of_nat (length (image_files_of σ folder))).
Proof.
  pose proof (process_folder_eq folder σ) as Heq.
  split; [|split; [|split; [|split; [|split; [|split]]]]].
  - intros Hnone. rewrite Heq, Hnone. reflexivity.
  - intros Hsome Hempty. rewrite Heq. destruct (fs σ !! folder) as [d|]; [|congruence].
    rewrite bool_decide_eq_true_2 by assumption. reflexivity.
  - rewrite Heq. destruct (fs σ !! folder) as [d|]; [|left; reflexivity].
    case_bool_decide; [right; assumption|].
    destruct (for_each _ _ _) as [[[]|ex] σ']; discriminate.
  - intros typed disk Hnone. unfold main. fold (fresh disk). unfold bind at 1.
    rewrite process_folder_eq. cbn [fresh fs]. rewrite Hnone. reflexivity.
  - intros typed disk Hsome Hempty. unfold main. fold (fresh disk). unfold bind at 1.
    rewrite process_folder_eq. cbn [fresh fs].
    destruct (disk !! PyPath.normalize typed) as [d|]; [|congruence].
    rewrite bool_decide_eq_true_2 by assumption. reflexivity.
  - intros Hsome Hfiles. rewrite Heq. destruct (fs σ !! folder) as [d|]; [|congruence].
    rewrite bool_decide_eq_false_2 by assumption. reflexivity.
  - intros b σ' H Hsome Hfiles.
    rewrite Heq in H. destruct (fs σ !! folder) as [d|]; [|congruence].
    rewrite bool_decide_eq_false_2 in H by assumption.
    destruct (for_each _ _ _) as [[[]|ex] σ1] eqn:Hloop; [|discriminate].
    injection H as <- <-. split; [reflexivity|].
    assert (forall xs s s', for_each xs (process_one C) s = (Return tt, s') ->
              total_files (stats s') = total_files (stats s)) as Htot.
    { induction xs as [|x xs IH]; intros s s'; simpl.
      - intros [= <-]. reflexivity.
      - unfold bind. destruct (process_one C x s) as [[[]|ex] s1] eqn:E; [|discriminate].
        intros Hr. rewrite (IH _ _ Hr). apply (process_one_counts _ _ _ E). }
    split.
    + rewrite (Htot _ _ _ Hloop). reflexivity.
    + rewrite (for_each_returns (fun s => compressed (stats s) + failed (stats s))
                 (process_one C)
                 (fun x s s' E => proj1 (process_one_counts x s s' E)) _ _ _ Hloop).
      rewrite enumerate_length. reflexivity.
Qed.

End Run.

(** * Rendering sizes *)

Lemma Qltb_lt x y : Qltb x y = true <-> (x < y)%Q.
Proof.
  unfold Qltb. rewrite negb_true_iff. split.
  - intros H. apply Qnot_le_lt. intros Hle. apply Qle_bool_iff in Hle. congruence.
  - intros H. apply not_true_is_false. intros Hle. apply Qle_bool_iff in Hle.
    apply (Qlt_not_le _ _ H Hle).
Qed.

Lemma Qltb_ge x y : Qltb x y = false <-> (y <= x)%Q.
Proof.
  unfold Qltb. rewrite negb_false_iff. apply Qle_bool_iff.
Qed.

Lemma pow1024_pos k : (0 < inject_Z (1024 ^ Z.of_nat k))%Q.
Proof.
  change 0%Q with (inject_Z 0). rewrite <- Zlt_Qlt. apply Z.pow_pos_nonneg; lia.
Qed.

Lemma pow1024_neq k : ~ (inject_Z (1024 ^ Z.of_nat k) == 0)%Q.
Proof. intros H. pose proof (pow1024_pos k) as Hq. rewrite H in Hq. apply (Qlt_irrefl _ Hq). Qed.

Lemma scaled_eq n k : (scaled n k == inject_Z n / inject_Z (1024 ^ Z.of_nat k))%Q.
Proof.
  induction k as [|k IH].
  - cbn [scaled]. replace (1024 ^ Z.of_nat 0)%Z with 1%Z by reflexivity.
    change (inject_Z 1) with 1%Q. field.
  - cbn [scaled]. rewrite IH. rewrite Nat2Z.inj_succ, Z.pow_succ_r by lia.
    rewrite inject_Z_mult. field. apply pow1024_neq.
Qed.

Lemma scaled_lt n k : (scaled n k < 1024)%Q <-> (n < 1024 ^ Z.of_nat (S k))%Z.
Proof.
  rewrite scaled_eq. pose proof (pow1024_pos k) as Hq.
  rewrite Nat2Z.inj_succ, Z.pow_succ_r by lia.
  rewrite Zlt_Qlt, inject_Z_mult. change (inject_Z 1024) with 1024%Q.
  split.
  - intros H. apply (Qmult_lt_r _ _ _ Hq) in H.
    assert (inject_Z n / inject_Z (1024 ^ Z.of_nat k) * inject_Z (1024 ^ Z.of_nat k)
            == inject_Z n)%Q as E by (field; apply pow1024_neq).
    rewrite E in H. exact H.
  - intros H. apply Qlt_shift_div_r; assumption.
Qed.

Lemma format_size_loop_first units unit n k :
  (n < 1024 ^ Z.of_nat (S k))%Z ->
  format_size_loop (unit :: units) (scaled n k) = format_2f (scaled n k) ++ lit " " ++ unit.
Proof.
  intros H. cbn [format_size_loop].
  rewrite (proj2 (Qltb_lt _ _)) by (apply scaled_lt; assumption). reflexivity.
Qed.

Lemma format_size_loop_next units unit n k :
  (1024 ^ Z.of_nat (S k) <= n)%Z ->
  format_size_loop (unit :: units) (scaled n k) = format_size_loop units (scaled n (S k)).
Proof.
  intros H. cbn [format_size_loop].
  destruct (Qltb (scaled n k) 1024) eqn:E; [|reflexivity].
  apply Qltb_lt, scaled_lt in E. lia.
Qed.

(** The integer chosen by [round_half_even] is a nearest one. *)
Lemma round_half_even_nearest x :
  (Qabs (x - inject_Z (round_half_even x)) <= 1 # 2)%Q.
Proof.
  unfold round_half_even.
  pose proof (Qfloor_le x) as Hlo. pose proof (Qlt_floor x) as Hhi.
  rewrite inject_Z_plus in Hhi. change (inject_Z 1) with 1%Q in Hhi.
  set (f := Qfloor x) in *.
  assert (forall y, (- (1 # 2) <= y)%Q -> (y <= 1 # 2)%Q -> (Qabs y <= 1 # 2)%Q) as Habs.
  { intros y H0 H1. apply Qabs_Qle_condition. split; assumption. }
  destruct (Qltb (x - inject_Z f) (1 # 2)) eqn:E1.
  - apply Qltb_lt in E1. apply Habs; lra.
  - apply Qltb_ge in E1.
    destruct (Qltb (1 # 2) (x - inject_Z f)) eqn:E2.
    + apply Habs; rewrite inject_Z_plus; change (inject_Z 1) with 1%Q; lra.
    + apply Qltb_ge in E2.
      destruct (Z.even f); apply Habs;
        rewrite ?inject_Z_plus; change (inject_Z 1) with 1%Q; lra.
Qed.

(** C10. [format_size] divides by 1024 until the value is below 1024, renders
    that value with two decimals and the unit reached, and ends at TB. This
    for every size a float holds exactly, where the divisions of the code are
    exact too. *)
Theorem format_size_scales_by_1024 (n : Z) :
  exact_float n ->
  ((n < 1024)%Z -> format_size n = format_2f (inject_Z n) ++ lit " B") /\
  ((1024 <= n < 1024 ^ 2)%Z ->
     format_size n = format_2f (inject_Z n / 1024) ++ lit " KB") /\
  ((1024 ^ 2 <= n < 1024 ^ 3)%Z ->
     format_size n = format_2f (inject_Z n / 1024 / 1024) ++ lit " MB") /\
  ((1024 ^ 3 <= n < 1024 ^ 4)%Z ->
     format_size n = format_2f (inject_Z n / 1024 / 1024 / 1024) ++ lit " GB") /\
  ((1024 ^ 4 <= n)%Z ->
     format_size n = format_2f (inject_Z n / 1024 / 1024 / 1024 / 1024) ++ lit " TB") /\
  (forall x, (Qabs (x * 100 - inject_Z (round_half_even (x * 100))) <= 1 # 2)%Q) /\
  format_size 0 = lit "0.00 B" /\
  format_size 1536 = lit "1.50 KB" /\
  format_size 1073741824 = lit "1.00 GB".
Proof.
  intros _. unfold format_size. change (inject_Z n) with (scaled n 0).
  split; [|split; [|split; [|split; [|split; [|split]]]]].
  - intros H. apply format_size_loop_first. exact H.
  - intros [H1 H2]. rewrite format_size_loop_next by exact H1.
    apply format_size_loop_first. exact H2.
  - intros [H1 H2].
    rewrite format_size_loop_next by (change (1024 ^ Z.of_nat 1)%Z with 1024%Z; lia).
    rewrite format_size_loop_next by exact H1.
    apply format_size_loop_first. exact H2.
  - intros [H1 H2].
    rewrite format_size_loop_next by (change (1024 ^ Z.of_nat 1)%Z with 1024%Z; lia).
    rewrite format_size_loop_next by (change (1024 ^ Z.of_nat 2)%Z with (1024 ^ 2)%Z; lia).
    rewrite format_size_loop_next by exact H1.
    apply format_size_loop_first. exact H2.
  - intros H1.
    rewrite format_size_loop_next by (change (1024 ^ Z.of_nat 1)%Z with 1024%Z; lia).
    rewrite format_size_loop_next by (change (1024 ^ Z.of_nat 2)%Z with (1024 ^ 2)%Z; lia).
    rewrite format_size_loop_next by (change (1024 ^ Z.of_nat 3)%Z with (1024 ^ 3)%Z; lia).
    rewrite format_size_loop_next by exact H1.
    reflexivity.
  - intros x. apply round_half_even_nearest.
  - repeat split; vm_compute; reflexivity.
Qed.

(** * When the run completes *)


Section Completion.
Context (C : codec).
Hypothesis open_empty_fails : exists e, img_open C [] = Raise e.

Lemma image_files_spec σ folder p :
  p ∈ image_files_of σ folder ->
  (exists d, fs σ !! p = Some (File d)) /\ is_image (PyPath.name p) = true.
Proof.
  unfold image_files_of. intros [Hp _]%list_elem_of_filter.
  apply andb_True in Hp as [Hfile Himg]. split.
  - unfold Os.is_file in Hfile. destruct (fs σ !! p) as [[d|n]|]; try contradiction. eauto.
  - apply Is_true_true. exact Himg.
Qed.





End Completion.

(** * The range of the classification *)

Lemma rfind_from_spec c (x : str) i :
  0 <= i ->
  (PyStr.rfind_from c x i = (-1) /\ (c ∉ x)) \/
  (exists pre post, x = pre ++ c :: post /\ (c ∉ post) /\
     PyStr.rfind_from c x i = i + Z.of_nat (length pre)).
Proof.
  revert i. induction x as [|a x IH]; intros i Hi.
  - left. split; [reflexivity|apply not_elem_of_nil].
  - cbn [PyStr.rfind_from]. destruct (IH (i + 1) ltac:(lia)) as [[Hr Hc]|(pre & post & -> & Hc & Hr)].
    + rewrite Hr. cbn [Z.leb Z.compare]. case_bool_decide as Hac.
      * right. exists [], x. subst a. repeat split; [assumption|simpl; lia].
      * left. split; [reflexivity|]. apply not_elem_of_cons. split; [congruence|assumption].
    + right. exists (a :: pre), post. split; [reflexivity|]. split; [assumption|].
      rewrite Hr. rewrite (proj2 (Z.leb_le _ _)) by lia. simpl length. lia.
Qed.

Lemma lower_idem x : PyStr.lower (PyStr.lower x) = PyStr.lower x.
Proof.
  unfold PyStr.lower. rewrite map_map. apply map_ext. intros c. apply lower_char_idem.
Qed.

(** [Path.suffix] is empty, or a dot followed by a non-empty run of characters
    that holds neither a dot nor a separator. *)
Lemma suffix_shape (p : str) :
  PyPath.suffix p = [] \/
  exists stem e, PyPath.name p = stem ++ "."%char :: e /\ stem <> [] /\
    PyPath.suffix p = "."%char :: e /\ e <> [] /\ ("."%char ∉ e) /\ ("/"%char ∉ e).
Proof.
  unfold PyPath.suffix.
  destruct ((0 <? PyStr.rfind "." (PyPath.name p)) &&
            (PyStr.rfind "." (PyPath.name p) <? PyStr.len (PyPath.name p) - 1))%bool eqn:E;
    [|left; reflexivity].
  right. apply andb_true_iff in E as [E1 E2]. apply Z.ltb_lt in E1, E2.
  unfold PyStr.rfind in *.
  destruct (rfind_from_spec "." (PyPath.name p) 0 ltac:(lia))
    as [[Hr _]|(pre & post & Hname & Hdot & Hr)]; [lia|].
  rewrite Hr in E1, E2 |- *. rewrite Hname in E2 |- *.
  unfold PyStr.len in E2. rewrite length_app in E2. simpl length in E2.
  exists pre, post. split; [reflexivity|].
  split; [destruct pre; [simpl in E1; lia|discriminate]|].
  split.
  - unfold PyStr.slice_from.
    replace (Z.to_nat (0 + Z.of_nat (length pre))) with (length pre) by lia.
    apply drop_app_length.
  - split; [destruct post; [simpl in E2; lia|discriminate]|]. split; [assumption|].
    destruct (name_cases p) as [Hnil|[_ Hsep]].
    + rewrite Hnil in Hname. destruct pre; discriminate.
    + rewrite Hname in Hsep. intros Hin. apply Hsep. apply elem_of_app. right. right. assumption.
Qed.

Lemma not_elem_of_lit (c : ascii) (x : string) :
  forallb (fun a => negb (bool_decide (a = c))) (lit x) = true -> c ∉ lit x.
Proof.
  intros H Hin. rewrite forallb_forall in H. apply list_elem_of_In in Hin.
  specialize (H c Hin). rewrite bool_decide_eq_true_2 in H by reflexivity. discriminate H.
Qed.

(** The three branches of [get_extension], with what each one returns. *)
Lemma get_extension_cases filename :
  (exists suf, suf ∈ [lit ".jpg.avif"; lit ".jpg.webp"] /\
     suf `suffix_of` PyStr.lower filename /\ get_extension filename = suf) \/
  (exists suf, suf ∈ [lit ".png.webp"; lit ".png.avif"] /\
     suf `suffix_of` PyStr.lower filename /\ get_extension filename = drop 1 suf) \/
  ((forall suf, suf ∈ compound_suffixes -> ~ suf `suffix_of` PyStr.lower filename) /\
   get_extension filename = PyPath.suffix (PyStr.lower filename)).
Proof.
  unfold get_extension.
  destruct (PyStr.endswith (PyStr.lower filename) [lit ".jpg.avif"; lit ".jpg.webp"]) eqn:E1.
  { left. apply endswith_two in E1 as [H|H]; eexists; (split; [|split; [exact H|]]);
      [left| |right; left|]; rewrite (slice_last_suffix _ _ 9 H) by (simpl; lia); reflexivity. }
  destruct (PyStr.endswith (PyStr.lower filename) [lit ".png.webp"; lit ".png.avif"]) eqn:E2.
  { right. left. apply endswith_two in E2 as [H|H]; eexists; (split; [|split; [exact H|]]);
      [left| |right; left|]; rewrite (slice_last_suffix _ _ 8 H) by (simpl; lia); reflexivity. }
  right. right. split; [|reflexivity].
  intros suf Hin Hsuf. unfold compound_suffixes in Hin.
  assert (PyStr.endswith (PyStr.lower filename) [lit ".jpg.avif"; lit ".jpg.webp"] = true \/
          PyStr.endswith (PyStr.lower filename) [lit ".png.webp"; lit ".png.avif"] = true)
    as [H|H]; [|congruence..].
  rewrite !endswith_two.
  repeat (apply elem_of_cons in Hin as [->|Hin]; [tauto|]).
  apply elem_of_nil in Hin. contradiction.
Qed.

(** X4. Whatever the name, the logical extension is one of the two dotted
    [.jpg] compounds, one of the two [.png] compounds without their dot, the
    empty string, or a single lowercase dot-segment; it is never [.png.avif]. *)
Theorem get_extension_range filename :
  (get_extension filename ∈ [lit ".jpg.avif"; lit ".jpg.webp"; lit "png.webp"; lit "png.avif"] \/
   get_extension filename = [] \/
   (exists e, get_extension filename = "."%char :: e /\ e <> [] /\
      ("."%char ∉ e) /\ ("/"%char ∉ e) /\ PyStr.lower e = e)) /\
  get_extension filename <> lit ".png.avif" /\
  get_extension filename <> lit ".png.webp".
Proof.
  assert (get_extension filename ∈ [lit ".jpg.avif"; lit ".jpg.webp"; lit "png.webp"; lit "png.avif"] \/
   get_extension filename = [] \/
   (exists e, get_extension filename = "."%char :: e /\ e <> [] /\
      ("."%char ∉ e) /\ ("/"%char ∉ e) /\ PyStr.lower e = e)) as Hrange.
  { destruct (get_extension_cases filename)
      as [(suf & Hin & _ & ->)|[(suf & Hin & _ & ->)|[_ ->]]].
    - left. apply elem_of_pair in Hin as [->| ->]; [left|right; left].
    - left. apply elem_of_pair in Hin as [->| ->]; [right; right; left|right; right; right; left].
    - right. destruct (suffix_shape (PyStr.lower filename))
        as [->|(stem & e & Hname & _ & -> & He & Hdot & Hsep)]; [left; reflexivity|].
      right. exists e. repeat split; try assumption.
      rewrite name_lower in Hname.
      assert (PyStr.lower (stem ++ "."%char :: e) = stem ++ "."%char :: e) as Hl
        by (rewrite <- Hname; apply lower_idem).
      rewrite lower_app in Hl. apply app_inj_1 in Hl as [_ Hl]; [|apply lower_length].
      unfold PyStr.lower in Hl |- *. cbn [map] in Hl. injection Hl as Hl. exact Hl. }
  split; [exact Hrange|].
  split; intros H; rewrite H in Hrange;
    destruct Hrange as [Hin|[Hnil|(e & He & _ & Hdot & _)]];
    try discriminate Hnil;
    try (repeat (apply elem_of_cons in Hin as [Hin|Hin]; [discriminate Hin|]);
         apply elem_of_nil in Hin; exact Hin);
    injection He as <-; apply Hdot; vm_compute; right; right; right; left.
Qed.

(** A candidate's name ends in no compound suffix, and neither does its path. *)
Lemma candidate_plain p :
  is_image (PyPath.name p) = true ->
  (forall suf, suf ∈ compound_suffixes -> ~ suf `suffix_of` PyStr.lower p) /\
  get_extension p = PyPath.suffix (PyStr.lower p) /\
  get_extension (PyPath.name p) = PyPath.suffix (PyStr.lower p).
Proof.
  intros Himg. unfold is_image in Himg. apply bool_decide_eq_true in Himg.
  assert (PyPath.suffix (PyStr.lower (PyPath.name p)) = PyPath.suffix (PyStr.lower p)) as Hsame.
  { unfold PyPath.suffix. rewrite !name_lower, name_idem. reflexivity. }
  destruct (get_extension_cases (PyPath.name p))
    as [(suf & Hin & _ & E)|[(suf & Hin & _ & E)|[Hno E]]].
  1-2: exfalso; rewrite E in Himg; apply elem_of_pair in Hin as [->| ->];
       unfold supported_formats in Himg;
       repeat (apply elem_of_cons in Himg as [Himg|Himg]; [discriminate Himg|]);
       apply elem_of_nil in Himg; exact Himg.
  assert (forall suf, suf ∈ compound_suffixes -> ~ suf `suffix_of` PyStr.lower p) as Hp.
  { intros suf Hin Hsuf. apply (Hno suf Hin). rewrite <- name_lower.
    apply suffix_in_name; [assumption| |];
      unfold compound_suffixes in Hin;
      repeat (apply elem_of_cons in Hin as [->|Hin]); try (apply elem_of_nil in Hin; contradiction);
      try (apply not_elem_of_lit; reflexivity);
      split; discriminate. }
  split; [exact Hp|].
  destruct (get_extension_cases p) as [(suf & Hin & Hs & _)|[(suf & Hin & Hs & _)|[_ Ep]]].
  - exfalso. apply (Hp suf); [|assumption]. unfold compound_suffixes.
    apply elem_of_pair in Hin as [->| ->]; [left|right; left].
  - exfalso. apply (Hp suf); [|assumption]. unfold compound_suffixes.
    apply elem_of_pair in Hin as [->| ->]; [right; right; left|right; right; right; left].
  - split; [exact Ep|]. rewrite E. exact Hsame.
Qed.

(** X5. The scan classifies a file by its name, [compress_image] by its whole
    path: for every candidate the two agree, so the extension that selects the
    encoder is one of the supported set. *)
Theorem candidate_extension_agrees p :
  is_image (PyPath.name p) = true ->
  get_extension p = get_extension (PyPath.name p) /\
  get_extension p ∈ supported_formats.
Proof.
  intros Himg. destruct (candidate_plain p Himg) as (_ & E1 & E2).
  split; [congruence|]. rewrite E1, <- E2. apply is_image_iff. exact Himg.
Qed.

(** * Which encoder, with which settings *)

Lemma jpg_avif_extension p :
  get_extension p = lit ".jpg.avif" <-> lit ".jpg.avif" `suffix_of` PyStr.lower p.
Proof.
  split.
  - intros H. destruct (get_extension_cases p)
      as [(suf & Hin & Hs & E)|[(suf & Hin & _ & E)|[_ E]]].
    + rewrite H in E. subst suf. exact Hs.
    + rewrite H in E. apply elem_of_pair in Hin as [->| ->]; discriminate E.
    + rewrite H in E. destruct (suffix_shape (PyStr.lower p))
        as [Hnil|(stem & e & _ & _ & He & _ & Hdot & _)]; [rewrite Hnil in E; discriminate E|].
      rewrite He in E. injection E as <-. exfalso. apply Hdot.
      vm_compute. right. right. right. left.
  - intros H. apply get_extension_jpg_compound; [left|exact H].
Qed.

Lemma chosen_encoder_inv p enc :
  chosen_encoder p = Some enc ->
  (enc = JPEG 85 true /\ get_extension p ∈ [lit ".jpg"; lit ".jpeg"]) \/
  (enc = PNG true /\ get_extension p = lit ".png") \/
  (enc = WEBP 85 6 /\ get_extension p = lit ".webp") \/
  (enc = AVIF 85 /\ get_extension p = lit ".jpg.avif").
Proof.
  unfold chosen_encoder, encoder_for.
  case_bool_decide as H1.
  { intros [= <-]. left. split; [|exact H1].
    apply elem_of_pair in H1 as [-> | ->]; reflexivity. }
  case_bool_decide as H2.
  { intros [= <-]. right. left. split; [reflexivity|exact H2]. }
  case_bool_decide as H3.
  { intros [= <-]. right. right. left. split; [|exact H3]. rewrite H3. reflexivity. }
  case_bool_decide as H4; [|discriminate].
  intros [= <-]. right. right. right.
  apply elem_of_pair in H4 as [H4|H4].
  - split; [|exact H4]. rewrite H4. reflexivity.
  - exfalso. destruct (get_extension_cases p)
      as [(suf & Hin & _ & E)|[(suf & Hin & _ & E)|[_ E]]].
    + rewrite H4 in E. apply elem_of_pair in Hin as [->| ->]; discriminate E.
    + rewrite H4 in E. apply elem_of_pair in Hin as [->| ->]; discriminate E.
    + rewrite H4 in E. destruct (suffix_shape (PyStr.lower p))
        as [Hnil|(stem & e & _ & _ & He & _ & Hdot & _)]; [rewrite Hnil in E; discriminate E|].
      rewrite He in E. injection E as <-. apply Hdot.
      vm_compute. right. right. right. left.
Qed.

(** X6. The encoder and its settings are a function of the logical extension:
    JPEG at quality 85 with optimize, PNG with optimize, WEBP at quality 85
    with method 6, and AVIF at the default quality 85 for a path ending in
    [.jpg.avif]; no other encoder call occurs, so the table's entries 95 (for
    [.png]) and 80 (for [.avif]) never reach an encoder. *)
Theorem encoder_choice p :
  (chosen_encoder p = Some (JPEG 85 true) <-> get_extension p ∈ [lit ".jpg"; lit ".jpeg"]) /\
  (chosen_encoder p = Some (PNG true) <-> get_extension p = lit ".png") /\
  (chosen_encoder p = Some (WEBP 85 6) <-> get_extension p = lit ".webp") /\
  (chosen_encoder p = Some (AVIF 85) <-> lit ".jpg.avif" `suffix_of` PyStr.lower p) /\
  (forall enc, chosen_encoder p = Some enc ->
     enc ∈ [JPEG 85 true; PNG true; WEBP 85 6; AVIF 85]).
Proof.
  split; [|split; [|split; [|split]]].
  - split.
    + intros H. destruct (chosen_encoder_inv p _ H)
        as [[_ E]|[[E _]|[[E _]|[E _]]]]; [exact E|discriminate E..].
    + intros H. unfold chosen_encoder. apply elem_of_pair in H as [-> | ->]; reflexivity.
  - split.
    + intros H. destruct (chosen_encoder_inv p _ H)
        as [[E _]|[[_ E]|[[E _]|[E _]]]]; [discriminate E|exact E|discriminate E..].
    + intros H. unfold chosen_encoder. rewrite H. reflexivity.
  - split.
    + intros H. destruct (chosen_encoder_inv p _ H)
        as [[E _]|[[E _]|[[_ E]|[E _]]]]; [discriminate E..|exact E|discriminate E].
    + intros H. unfold chosen_encoder. rewrite H. reflexivity.
  - rewrite <- jpg_avif_extension. split.
    + intros H. destruct (chosen_encoder_inv p _ H)
        as [[E _]|[[E _]|[[E _]|[_ E]]]]; [discriminate E..|exact E].
    + intros H. unfold chosen_encoder. rewrite H. reflexivity.
  - intros enc H. destruct (chosen_encoder_inv p _ H)
      as [[-> _]|[[-> _]|[[-> _]|[-> _]]]];
      [left|right; left|right; right; left|right; right; right; left].
Qed.

(** The encoder of a candidate is never AVIF. *)
Lemma candidate_encoder p enc :
  is_image (PyPath.name p) = true -> chosen_encoder p = Some enc ->
  enc ∈ [JPEG 85 true; PNG true; WEBP 85 6].
Proof.
  intros Himg H. destruct (candidate_plain p Himg) as (Hno & _).
  destruct (chosen_encoder_inv p _ H) as [[-> _]|[[-> _]|[[-> _]|[_ E]]]];
    [left|right; left|right; right; left|].
  exfalso. apply jpg_avif_extension in E. revert E. apply Hno. left.
Qed.

(** * What a run does to the disk and which encoders it calls *)

Lemma for_each_preserves_in {A} (R : state -> state -> Prop) (body : A -> M state unit)
      (xs : list A) :
  (forall σ, R σ σ) -> (forall a b c, R a b -> R b c -> R a c) ->
  (forall x σ, x ∈ xs -> R σ (body x σ).2) ->
  forall σ, R σ (for_each xs body σ).2.
Proof.
  intros Hrefl Htrans. induction xs as [|x xs IH]; intros Hstep σ; cbn [for_each].
  - apply Hrefl.
  - unfold bind. pose proof (Hstep x σ ltac:(left)) as H1.
    destruct (body x σ) as [[[]|e] σ1]; cbn [snd] in *; [|assumption].
    eapply Htrans; [exact H1|]. apply IH. intros y s Hy. apply Hstep. right. assumption.
Qed.

Lemma enumerate_elem {A} (xs : list A) k i x : (i, x) ∈ enumerate xs k -> x ∈ xs.
Proof.
  revert k. induction xs as [|y xs IH]; intros k; cbn [enumerate].
  - intros H. apply elem_of_nil in H. contradiction.
  - intros [[= _ ->]|H]%elem_of_cons; [left|right; eapply IH; eassumption].
Qed.

Section Frame.
Context (C : codec).

Lemma outcome_trace p σ tried r σ' :
  compress_outcome C p σ tried r σ' ->
  exists new, trace σ' = trace σ ++ new /\
    forall ev, ev ∈ new ->
      (exists e, ev = EvPrint (MsgError p e)) \/
      (exists enc, chosen_encoder p = Some enc /\ ev = EvSave (p ++ lit ".tmp") enc).
Proof.
  intros H. destruct H; cbn [trace].
  2:{ exists []. split; [symmetry; apply app_nil_r|]. intros ev Hev.
      apply elem_of_nil in Hev. contradiction. }
  all: eexists; (split; [reflexivity|]); intros ev Hev;
    repeat (apply elem_of_cons in Hev as [->|Hev]; [eauto|]);
    apply elem_of_nil in Hev; contradiction.
Qed.



(** The disk and the trace after the loop body are those [compress_image]
    left, but for the verdict line. *)
Lemma process_one_effect i p σ :
  (fs σ !! p = None /\ (process_one C (i, p) σ).2 = σ) \/
  (exists e tried r σ3,
     fs σ !! p = Some e /\
     compress_outcome C p (announced i p (entry_size e) σ) tried r σ3 /\
     fs (process_one C (i, p) σ).2 = fs σ3 /\
     exists verdict, trace (process_one C (i, p) σ).2 = trace σ3 ++ verdict /\
       (verdict = [] \/ verdict = [EvPrint MsgCross] \/
        exists e3, r = Return true /\ fs σ3 !! p = Some e3 /\ entry_size e <> 0 /\
          verdict = [EvPrint (MsgReduced
                       ((1 - inject_Z (entry_size e3) / inject_Z (entry_size e)) * 100)%Q)])).
Proof.
  rewrite process_one_eq. destruct (fs σ !! p) as [e|] eqn:Hp; [right|left; split; reflexivity].
  destruct (compress_image_outcome_ex C p (announced i p (entry_size e) σ))
    as (tried & fr & r & σ3 & _ & -> & Hout).
  exists e, tried, r, σ3. split; [reflexivity|]. split; [exact Hout|].
  destruct r as [[|]|ex]; cbn [snd fs trace].
  - destruct (fs σ3 !! p) as [e3|] eqn:H3; [destruct (entry_size e =? 0) eqn:E0|];
      cbn [snd fs trace]; (split; [reflexivity|]);
      try (exists []; split; [symmetry; apply app_nil_r|left; reflexivity]).
    eexists. split; [reflexivity|]. right. right. exists e3.
    apply Z.eqb_neq in E0. auto.
  - split; [reflexivity|]. eexists. split; [reflexivity|]. right. left. reflexivity.
  - split; [reflexivity|]. exists []. split; [symmetry; apply app_nil_r|left; reflexivity].
Qed.





Lemma process_one_saves xs i p σ :
  p ∈ xs -> is_image (PyPath.name p) = true ->
  trace_grows_by_saves_for xs σ (process_one C (i, p) σ).2.
Proof.
  intros Hin Himg.
  destruct (process_one_effect i p σ)
    as [[_ ->]|(e & tried & r & σ3 & Hp & Hout & _ & verdict & Htr & Hverdict)].
  { exists []. split; [symmetry; apply app_nil_r|]. intros t enc H.
    apply elem_of_nil in H. contradiction. }
  assert (forall t enc, EvSave t enc ∉ verdict) as Hnosave.
  { intros t enc H.
    destruct Hverdict as [->|[->|(e3 & _ & _ & _ & ->)]];
      [apply elem_of_nil in H|apply list_elem_of_singleton in H|apply list_elem_of_singleton in H];
      [contradiction|discriminate H|discriminate H]. }
  destruct (outcome_trace _ _ _ _ _ Hout) as (new & Hnew & Hev).
  cbn [announced trace] in Hnew.
  eexists. split.
  - rewrite Htr, Hnew, <- !app_assoc. reflexivity.
  - intros t enc H. apply elem_of_cons in H as [H|H]; [discriminate H|].
    apply elem_of_app in H as [H|H].
    + destruct (Hev _ H) as [[l Hl]|(enc' & Henc & [= -> ->])]; [discriminate Hl|].
      split; [eapply candidate_encoder; eassumption|]. exists p. split; [assumption|reflexivity].
    + exfalso. eapply Hnosave, H.
Qed.

Lemma run_states folder σ (R : state -> state -> Prop) :
  (forall s, R s s) -> (forall a b c, R a b -> R b c -> R a c) ->
  R σ (emit (EvPrint (MsgNoFolder folder)) σ) ->
  R σ (emit (EvPrint MsgNoImage) σ) ->
  (forall s n, R s (started n s)) ->
  (forall i p s, p ∈ image_files_of σ folder -> R s (process_one C (i, p) s).2) ->
  R σ (process_folder C folder σ).2.
Proof.
  intros Hrefl Htrans Hnofolder Hnoimage Hstart Hstep. rewrite process_folder_eq.
  destruct (fs σ !! folder); [|exact Hnofolder].
  case_bool_decide; [exact Hnoimage|].
  pose proof (for_each_preserves_in R (process_one C) (enumerate (image_files_of σ folder) 1)
                Hrefl Htrans) as Hloop.
  specialize (Hloop ltac:(intros [i p] s Hin; apply Hstep; eapply enumerate_elem; eassumption)
                    (started (Z.of_nat (length (image_files_of σ folder))) σ)).
  destruct (for_each _ _ _) as [[[]|ex] σ']; cbn [snd] in *;
    (eapply Htrans; [apply Hstart|exact Hloop]).
Qed.

End Frame.

(** * The whole run: encoders called, files kept, counters *)

Section WholeRun.
Context (C : codec).

Lemma saves_for_nil xs : saves_for xs [].
Proof. intros t enc H. apply elem_of_nil in H. contradiction. Qed.

Lemma saves_for_print xs l : saves_for xs [EvPrint l].
Proof. intros t enc H. apply list_elem_of_singleton in H. discriminate H. Qed.

Lemma saves_for_app xs a b : saves_for xs a -> saves_for xs b -> saves_for xs (a ++ b).
Proof. intros Ha Hb t enc [H|H]%elem_of_app; [apply Ha|apply Hb]; exact H. Qed.


(** X7. Whatever the folder holds, a run calls the encoder only on the
    temporary path of a candidate of the scan, and only with the JPEG, PNG or
    WebP settings: the AVIF branch of [compress_image] is never reached from
    [process_folder]. *)
Theorem run_encodes_only_candidates folder σ :
  exists new, trace (process_folder C folder σ).2 = trace σ ++ new /\
    forall t enc, EvSave t enc ∈ new ->
      enc ∈ [JPEG 85 true; PNG true; WEBP 85 6] /\
      exists p, p ∈ image_files_of σ folder /\ t = p ++ lit ".tmp".
Proof.
  apply (run_states C folder σ (trace_grows_by_saves_for (image_files_of σ folder))).
  - intros s. exists []. split; [symmetry; apply app_nil_r|apply saves_for_nil].
  - intros a b c (n1 & H1 & S1) (n2 & H2 & S2). exists (n1 ++ n2). split.
    + rewrite H2, H1, app_assoc. reflexivity.
    + apply saves_for_app; assumption.
  - eexists. split; [reflexivity|apply saves_for_print].
  - eexists. split; [reflexivity|apply saves_for_print].
  - intros s n. eexists. split; [reflexivity|apply saves_for_print].
  - intros i p s Hp. apply process_one_saves; [exact Hp|].
    apply (image_files_spec σ folder p Hp).
Qed.




End WholeRun.

(** * The summary and the script *)

Lemma print_summary_eq σ :
  print_summary σ =
    (Return tt, MkState (stats σ) (fs σ) (trace σ ++ map EvPrint (summary_lines (stats σ)))).
Proof.
  unfold print_summary, summary_lines, bind, print, modify, get, ret, emit, true_div, raise.
  cbn [fst snd stats fs trace].
  destruct (0 <? original_size (stats σ)) eqn:E; cbn [fst snd stats fs trace].
  - apply Z.ltb_lt in E.
    destruct (original_size (stats σ) =? 0) eqn:E0; [apply Z.eqb_eq in E0; lia|].
    unfold ret. cbn [fst snd stats fs trace map app]. rewrite <- !app_assoc. reflexivity.
  - cbn [map app]. rewrite <- !app_assoc. reflexivity.
Qed.


Section Script.
Context (C : codec).








(** X11. While the totals it renders are sizes a float holds exactly,
    [print_summary] returns: the division is reached only behind its guard. It
    prints ten lines, or eleven with the line of the saved space, which is
    there exactly when the original total is positive; the last line is the
    rule; disk and statistics are untouched. *)
Theorem print_summary_returns σ :
  exact_float (original_size (stats σ)) ->
  exact_float (compressed_size (stats σ)) ->
  exact_float (original_size (stats σ) - compressed_size (stats σ)) ->
  exists lines,
    print_summary σ = (Return tt, MkState (stats σ) (fs σ) (trace σ ++ map EvPrint lines)) /\
    last lines = Some MsgRule /\
    ((exists s q, MsgSaved s q ∈ lines) <-> 0 < original_size (stats σ)) /\
    length lines = (if 0 <? original_size (stats σ) then 11%nat else 10%nat).
Proof.
  intros _ _ _.
  exists (summary_lines (stats σ)). split; [apply print_summary_eq|].
  unfold summary_lines. destruct (0 <? original_size (stats σ)) eqn:E; cbn [app].
  - apply Z.ltb_lt in E. split; [reflexivity|]. split; [|reflexivity].
    split; [intros _; exact E|]. intros _. do 2 eexists.
    do 9 apply list_elem_of_further. apply list_elem_of_here.
  - apply Z.ltb_ge in E. split; [reflexivity|]. split; [|reflexivity].
    split; [|lia]. intros (s & q & H).
    repeat (apply elem_of_cons in H as [H|H]; [discriminate H|]).
    apply elem_of_nil in H. contradiction.
Qed.

End Script.

(** * One call after another *)

Section Calls.
Context (C : codec).

Lemma preamble_ext σ σ' p : fs σ' !! p = fs σ !! p -> preamble C σ' p = preamble C σ p.
Proof. unfold preamble. intros ->. reflexivity. Qed.


(** X13. Calling again on a file that was kept changes nothing: when a call
    returned [True] and left the image as it was (the encoding was not
    smaller), a second call returns [True] again and leaves the disk as the
    first call left it. *)
Theorem second_call_changes_nothing p σ :
  (compress_image C p σ).1 = Return true ->
  fs (compress_image C p σ).2 !! p = fs σ !! p ->
  (compress_image C p (compress_image C p σ).2).1 = Return true /\
  fs (compress_image C p (compress_image C p σ).2).2 = fs (compress_image C p σ).2.
Proof.
  destruct (compress_image_outcome_ex C p σ) as (tried & fr & r & σ1 & _ & -> & Hout).
  cbn [fst snd]. intros -> Hsame.
  assert (exists orig img enc new,
            preamble C σ p = Return (orig, img) /\ chosen_encoder p = Some enc /\
            img_save C img enc = Saved new /\ (length orig <= length new)%nat /\
            fs σ1 = delete (p ++ lit ".tmp") (fs σ)) as (orig & img & enc & new & Hpre & Henc & Hs & Hle & Hfs).
  { inversion Hout as [| | | |orig img enc new Hpre Henc Ht Hs Hlt
                        |orig img enc new Hpre Henc Ht Hs Hle]; subst.
    - exfalso. cbn [fs] in Hsame. rewrite lookup_insert_eq in Hsame.
      rewrite (preamble_file C _ _ _ _ Hpre) in Hsame. injection Hsame as ->. lia.
    - exists orig, img, enc, new. auto. }
  assert (preamble C σ1 p = Return (orig, img)) as Hpre1
    by (rewrite (preamble_ext σ σ1 p Hsame); exact Hpre).
  assert (fs σ1 !! (p ++ lit ".tmp") = None) as Htmp1
    by (rewrite Hfs; apply lookup_delete_eq).
  destruct (compress_image_outcome_ex C p σ1) as (tried2 & fr2 & r2 & σ2 & _ & -> & Hout2).
  cbn [fst snd].
  destruct Hout2 as [e He|orig' img' Hpre' Henc'|orig' img' enc' n' Hpre' Henc' Ht
                 |orig' img' enc' e part Hpre' Henc' Ht Hs'
                 |orig' img' enc' new' Hpre' Henc' Ht Hs' Hlt
                 |orig' img' enc' new' Hpre' Henc' Ht Hs' Hle']; cbn [fs];
    try congruence.
  - exfalso. rewrite Hpre1 in Hpre'. injection Hpre' as <- <-.
    rewrite Henc in Henc'. injection Henc' as <-.
    rewrite Hs in Hs'. injection Hs' as <-. lia.
  - split; [reflexivity|]. apply delete_id. exact Htmp1.
Qed.

End Calls.

(** * Every candidate is compressed from its original bytes *)

Section Originals.
Context (C : codec).







End Originals.


(** * The shape of a rendered size *)

Lemma string_of_uint_digits u :
  forallb is_digit (list_ascii_of_string (DecimalString.NilEmpty.string_of_uint u)) = true.
Proof. induction u; cbn [DecimalString.NilEmpty.string_of_uint list_ascii_of_string forallb]; try rewrite IHu; reflexivity. Qed.

Lemma str_of_nonneg_digits n :
  str_of_nonneg n <> [] /\ forallb is_digit (str_of_nonneg n) = true.
Proof.
  unfold str_of_nonneg, DecimalString.NilZero.string_of_uint.
  destruct (N.to_uint (Z.to_N n)) as [|u|u|u|u|u|u|u|u|u|u] eqn:E;
    (split; [discriminate|]); try reflexivity;
    rewrite <- ?E; cbn [DecimalString.NilEmpty.string_of_uint list_ascii_of_string forallb];
    rewrite string_of_uint_digits; reflexivity.
Qed.

Lemma two_decimals_all :
  forallb (fun k => two_decimals_ok (Z.of_nat k)) (seq 0 100) = true.
Proof. vm_compute. reflexivity. Qed.

Lemma two_decimals frac :
  0 <= frac < 100 ->
  exists d1 d2, (if frac <? 10 then lit "0" else []) ++ str_of_nonneg frac = [d1; d2] /\
    is_digit d1 = true /\ is_digit d2 = true.
Proof.
  intros Hf. pose proof two_decimals_all as H.
  rewrite forallb_forall in H. specialize (H (Z.to_nat frac)).
  rewrite Z2Nat.id in H by lia.
  assert (two_decimals_ok frac = true) as Hok by (apply H, in_seq; lia).
  unfold two_decimals_ok in Hok.
  destruct ((if frac <? 10 then lit "0" else []) ++ str_of_nonneg frac)
    as [|d1 [|d2 [|? ?]]]; try discriminate.
  apply andb_true_iff in Hok. exists d1, d2. split; [reflexivity|exact Hok].
Qed.

Lemma format_2f_shape x :
  exists whole d1 d2,
    format_2f x = (if Qltb x 0 then lit "-" else []) ++ whole ++ lit "." ++ [d1; d2] /\
    whole <> [] /\ forallb is_digit whole = true /\ is_digit d1 = true /\ is_digit d2 = true.
Proof.
  unfold format_2f. set (h := round_half_even (Qabs x * 100)).
  destruct (two_decimals (h mod 100)) as (d1 & d2 & Hd & H1 & H2);
    [apply Z.mod_pos_bound; lia|].
  destruct (str_of_nonneg_digits (h / 100)) as [Hne Hdig].
  exists (str_of_nonneg (h / 100)), d1, d2. rewrite Hd. auto.
Qed.

Lemma format_size_loop_shape units x :
  exists y unit,
    format_size_loop units x = format_2f y ++ lit " " ++ unit /\
    unit ∈ units ++ [lit "TB"] /\ Qltb y 0 = Qltb x 0.
Proof.
  revert x. induction units as [|u units IH]; intros x; cbn [format_size_loop].
  - exists x, (lit "TB"). split; [reflexivity|]. split; [left|reflexivity].
  - destruct (Qltb x 1024) eqn:E.
    + exists x, u. split; [reflexivity|]. split; [left|reflexivity].
    + destruct (IH (x / 1024)%Q) as (y & unit & Heq & Hin & Hsign).
      exists y, unit. split; [exact Heq|]. split; [right; exact Hin|].
      rewrite Hsign. apply Qltb_ge in E.
      transitivity false; [|symmetry]; apply Qltb_ge.
      * apply Qle_shift_div_l; lra.
      * lra.
Qed.

Lemma Qltb_inject_Z n : Qltb (inject_Z n) 0 = (n <? 0).
Proof.
  destruct (n <? 0) eqn:E.
  - apply Qltb_lt. apply Z.ltb_lt in E. change 0%Q with (inject_Z 0). rewrite <- Zlt_Qlt. exact E.
  - apply Qltb_ge. apply Z.ltb_ge in E. change 0%Q with (inject_Z 0). rewrite <- Zle_Qle. exact E.
Qed.

(** X15. For a size a float holds exactly, what [format_size] returns reads
    "digits . two digits, a space, a unit": a minus sign exactly for a
    negative size, at least one digit before the point, exactly two after it,
    and one of the units B, KB, MB, GB, TB. *)
Theorem format_size_shape n :
  exact_float n ->
  exists whole d1 d2 unit,
    format_size n =
      (if n <? 0 then lit "-" else []) ++ whole ++ lit "." ++ [d1; d2] ++ lit " " ++ unit /\
    whole <> [] /\ forallb is_digit whole = true /\
    is_digit d1 = true /\ is_digit d2 = true /\
    unit ∈ [lit "B"; lit "KB"; lit "MB"; lit "GB"; lit "TB"].
Proof.
  intros _. unfold format_size.
  destruct (format_size_loop_shape [lit "B"; lit "KB"; lit "MB"; lit "GB"] (inject_Z n))
    as (y & unit & -> & Hin & Hsign).
  destruct (format_2f_shape y) as (whole & d1 & d2 & -> & Hne & Hw & H1 & H2).
  rewrite Hsign, Qltb_inject_Z.
  exists whole, d1, d2, unit. split; [|auto].
  rewrite <- !app_assoc. reflexivity.
Qed.

(** * The byte totals of a completed run *)



Section Accounts.
Context (C : codec).




End Accounts.

(** * The theorems at work on the sample disks *)

(** [Path(...)] on what the user may type. *)
Example normalize_examples :
  PyPath.normalize (lit "d/") = lit "d" /\
  PyPath.normalize (lit "") = lit "." /\
  PyPath.normalize (lit "./d") = lit "d" /\
  PyPath.normalize (lit "a//b/./c/") = lit "a/b/c" /\
  PyPath.normalize (lit "/") = lit "/" /\
  PyPath.normalize (lit "//a") = lit "//a" /\
  PyPath.normalize (lit "///a/") = lit "/a" /\
  PyPath.normalize (lit "../x/") = lit "../x".
Proof. repeat split; vm_compute; reflexivity. Qed.

(** The scan from the current directory and from the root names the files as
    pathlib does, without [./] and without a doubled slash; a trailing slash
    in what was typed changes nothing. *)
Example scan_examples :
  (forall p, p ∈ image_files_of (fresh cwd_disk) (lit ".") <->
             p = lit "a.jpg" \/ p = lit "sub/b.png") /\
  image_files_of (fresh cwd_disk) (lit "/") = [lit "/e.jpg"] /\
  image_files_of (fresh cwd_disk) (lit "sub") = [lit "sub/b.png"] /\
  main shrinking_codec (lit "d/") sample_disk = main shrinking_codec (lit "d") sample_disk /\
  main shrinking_codec (lit "") cwd_disk = main shrinking_codec (lit ".") cwd_disk.
Proof.
  split; [|repeat split; vm_compute; reflexivity].
  intros p.
  assert (exists l, image_files_of (fresh cwd_disk) (lit ".") = l /\
                    (forall q, q ∈ l <-> q = lit "a.jpg" \/ q = lit "sub/b.png")) as (l & -> & H).
  { eexists. split; [vm_compute; reflexivity|]. intros q.
    rewrite !elem_of_cons, elem_of_nil. tauto. }
  apply H.
Qed.



(** C2 at work: a run over the sample disk; its jpeg, three bytes that the
    encoder turns into two; and its empty png, which does not open. *)
Lemma compressed_size_never_exceeds_original_witness :
  compressed_size (stats (process_folder shrinking_codec (lit "d") (fresh sample_disk)).2)
    <= original_size (stats (process_folder shrinking_codec (lit "d") (fresh sample_disk)).2) /\
  (original_size (stats (process_one shrinking_codec (1, lit "d/a.jpg") (fresh sample_disk)).2) = 3 /\
   compressed_size (stats (process_one shrinking_codec (1, lit "d/a.jpg") (fresh sample_disk)).2)
     = 2 /\
   fs (process_one shrinking_codec (1, lit "d/a.jpg") (fresh sample_disk)).2 !! lit "d/a.jpg"
     = Some (File [Byte.x02; Byte.x03])) /\
  (compressed_size (stats (process_one shrinking_codec (3, lit "d/sub/e.PNG") (fresh sample_disk)).2)
     = 0 /\
   failed (stats (process_one shrinking_codec (3, lit "d/sub/e.PNG") (fresh sample_disk)).2) = 1).
Proof.
  destruct (compressed_size_never_exceeds_original shrinking_codec (lit "d") (fresh sample_disk))
    as (_ & H & _ & _ & Henc & Hfail).
  split; [apply H; vm_compute; discriminate|]. split.
  - apply (Henc 1 (lit "d/a.jpg") (fresh sample_disk) three_bytes three_bytes (JPEG 85 true)
             [Byte.x02; Byte.x03]).
    + vm_compute. reflexivity.
    + vm_compute. reflexivity.
    + intros n. vm_compute. discriminate.
    + vm_compute. reflexivity.
  - destruct (Hfail 3 (lit "d/sub/e.PNG") (fresh sample_disk) []) as (_ & Hc & Hf & _).
    + vm_compute. reflexivity.
    + left. eexists. vm_compute. reflexivity.
    + split; [exact Hc|exact Hf].
Defined.

Lemma plain_avif_b : plain_avif_name (lit "d/b.avif").
Proof.
  split.
  - exists (lit "b"). split; [discriminate|]. vm_compute. reflexivity.
  - intros suf Hin [k Hk].
    change (PyStr.lower (PyPath.name (lit "d/b.avif"))) with (lit "b.avif") in Hk.
    apply (f_equal (@length _)) in Hk. rewrite length_app in Hk.
    unfold compound_suffixes in Hin.
    repeat (apply elem_of_cons in Hin as [->|Hin]; [simpl in Hk; lia|]).
    apply elem_of_nil in Hin. exact Hin.
Qed.

(** C4 at work: the plain avif of the sample disk. *)
Lemma plain_avif_selected_then_failed_witness :
  is_image (PyPath.name (lit "d/b.avif")) = true /\
  chosen_encoder (lit "d/b.avif") = None.
Proof.
  destruct (plain_avif_selected_then_failed shrinking_codec (lit "d/b.avif") plain_avif_b)
    as (H1 & _ & H3 & _).
  split; assumption.
Defined.

(** C5, at the failing input. With a directory at the temporary path, [save]
    raises, the [except] clause finds that the path exists and calls
    [os.remove] on it, and that second exception leaves [compress_image],
    [process_folder] and the script. *)
Theorem cleanup_of_a_directory_escapes :
  (compress_image faithful_codec (lit "d/a.jpg") (fresh blocked_disk)).1
    = Raise (IsADirectoryError (lit "d/a.jpg.tmp")) /\
  (process_folder faithful_codec (lit "d") (fresh blocked_disk)).1
    = Raise (IsADirectoryError (lit "d/a.jpg.tmp")) /\
  (main faithful_codec (lit "d") blocked_disk).1 = 1 /\
  fs (compress_image faithful_codec (lit "d/a.jpg") (fresh blocked_disk)).2 = blocked_disk.
Proof. repeat split; vm_compute; reflexivity. Qed.

(** C6 refuted as stated: the avif of the sample disk has no encoder, its call
    returns the same [False] as the undecodable empty png, and the loop body
    adds one to the failure counter. *)
Lemma unsupported_skip_counts_as_failure :
  chosen_encoder (lit "d/b.avif") = None /\
  (compress_image shrinking_codec (lit "d/b.avif") (fresh sample_disk)).1 = Return false /\
  (compress_image shrinking_codec (lit "d/sub/e.PNG") (fresh sample_disk)).1 = Return false /\
  failed (stats (fresh sample_disk)) = 0 /\
  failed (stats (process_one shrinking_codec (2, lit "d/b.avif") (fresh sample_disk)).2) = 1.
Proof. repeat split; vm_compute; reflexivity. Qed.

(** C6 as amended, at work on the same file. *)
Lemma no_encoder_is_counted_as_failure_witness :
  chosen_encoder (lit "d/b.avif") = None /\
  (compress_image shrinking_codec (lit "d/b.avif") (fresh sample_disk)).1 = Return false.
Proof.
  assert (chosen_encoder (lit "d/b.avif") = None) as Hnone by (vm_compute; reflexivity).
  split; [exact Hnone|].
  apply (no_encoder_is_counted_as_failure shrinking_codec (lit "d/b.avif") Hnone).
Defined.

(** C8, at the failing input. The folder exists and holds a candidate, so the
    run should process it and return [True]; with a directory at the
    temporary path of that candidate the cleanup of the [except] clause raises
    in its turn, the exception leaves [process_folder], the candidate
    is counted neither as compressed nor as failed, and the script ends with
    status 1. *)
Theorem run_can_end_in_an_exception :
  fs (fresh blocked_disk) !! lit "d" = Some (Dir 4096) /\
  image_files_of (fresh blocked_disk) (lit "d") = [lit "d/a.jpg"] /\
  (process_folder faithful_codec (lit "d") (fresh blocked_disk)).1
    = Raise (IsADirectoryError (lit "d/a.jpg.tmp")) /\
  total_files (stats (process_folder faithful_codec (lit "d") (fresh blocked_disk)).2) = 1 /\
  compressed (stats (process_folder faithful_codec (lit "d") (fresh blocked_disk)).2) = 0 /\
  failed (stats (process_folder faithful_codec (lit "d") (fresh blocked_disk)).2) = 0 /\
  (main faithful_codec (lit "d") blocked_disk).1 = 1.
Proof. repeat split; vm_compute; reflexivity. Qed.

(** The early returns at work: a folder without images, and a missing folder. *)
Lemma process_folder_outcomes_witness :
  main shrinking_codec (lit "d") imageless_disk
    = (0, MkState stats_init imageless_disk [EvPrint MsgNoImage; EvPrint MsgNotDone]) /\
  main shrinking_codec (lit "nowhere") imageless_disk
    = (0, MkState stats_init imageless_disk
            [EvPrint (MsgNoFolder (lit "nowhere")); EvPrint MsgNotDone]).
Proof.
  destruct (process_folder_outcomes shrinking_codec (lit "d") (fresh imageless_disk))
    as (_ & _ & _ & _ & Hempty & _).
  destruct (process_folder_outcomes shrinking_codec (lit "nowhere") (fresh imageless_disk))
    as (_ & _ & _ & Hmissing & _).
  split.
  - apply Hempty; [vm_compute; discriminate|vm_compute; reflexivity].
  - apply Hmissing. vm_compute. reflexivity.
Defined.

(** C9 at work: a codec that opens the empty png of the sample disk. *)
Lemma zero_size_success_divides_by_zero_witness :
  (process_one lenient_codec (3, lit "d/sub/e.PNG") (fresh sample_disk)).1
    = Raise ZeroDivisionError.
Proof.
  assert (fs (fresh sample_disk) !! lit "d/sub/e.PNG" = Some (File [])) as Hp
    by (vm_compute; reflexivity).
  assert ((compress_image lenient_codec (lit "d/sub/e.PNG")
             (announced 3 (lit "d/sub/e.PNG") 0 (fresh sample_disk))).1 = Return true) as Hok
    by (vm_compute; reflexivity).
  destruct (zero_size_success_divides_by_zero lenient_codec 3 _ _ _ Hp eq_refl Hok)
    as (_ & _ & ->).
  reflexivity.
Defined.

(** C10 at work: two kibibytes. *)
Lemma format_size_scales_by_1024_witness :
  format_size 2048 = format_2f (inject_Z 2048 / 1024) ++ lit " KB" /\
  format_size 2048 = lit "2.00 KB".
Proof.
  split; [|vm_compute; reflexivity].
  apply (format_size_scales_by_1024 2048); unfold exact_float; lia.
Defined.



(** A compound name at work. *)
Lemma compound_never_candidate_witness : is_image (lit "c.PNG.avif") = false.
Proof.
  apply (compound_never_candidate _ (lit ".png.avif")).
  - unfold compound_suffixes. right. right. right. left.
  - exists (lit "c"). vm_compute. reflexivity.
Defined.

(** X5 at work: the empty png of the sample disk, seen by name and by path. *)
Lemma candidate_extension_agrees_witness :
  get_extension (lit "d/sub/e.PNG") = get_extension (lit "e.PNG") /\
  get_extension (lit "d/sub/e.PNG") ∈ supported_formats.
Proof.
  apply (candidate_extension_agrees (lit "d/sub/e.PNG")). vm_compute. reflexivity.
Defined.



(** X13 at work: the jpeg of the sample disk under a codec that writes the
    bytes back. *)
Lemma second_call_changes_nothing_witness :
  (compress_image faithful_codec (lit "d/a.jpg")
     (compress_image faithful_codec (lit "d/a.jpg") (fresh sample_disk)).2).1 = Return true.
Proof.
  apply (second_call_changes_nothing faithful_codec (lit "d/a.jpg") (fresh sample_disk)).
  - vm_compute. reflexivity.
  - vm_compute. reflexivity.
Defined.


(** X11 at work: the summary after the run over the sample disk. *)
Lemma print_summary_returns_witness :
  (print_summary (process_folder shrinking_codec (lit "d") (fresh sample_disk)).2).1 = Return tt.
Proof.
  destruct (print_summary_returns (process_folder shrinking_codec (lit "d") (fresh sample_disk)).2)
    as (lines & -> & _).
  - vm_compute. split; reflexivity.
  - vm_compute. split; reflexivity.
  - vm_compute. split; reflexivity.
  - reflexivity.
Defined.

(** X15 at work: a kibibyte and a half. *)
Lemma format_size_shape_witness :
  exists whole d1 d2 unit,
    format_size 1536 = whole ++ lit "." ++ [d1; d2] ++ lit " " ++ unit /\
    whole <> [] /\ forallb is_digit whole = true /\
    is_digit d1 = true /\ is_digit d2 = true /\
    unit ∈ [lit "B"; lit "KB"; lit "MB"; lit "GB"; lit "TB"].
Proof.
  apply (format_size_shape 1536). unfold exact_float. lia.
Defined.

